(** * Move selection of the Tron agent (brain.py) and the move-string
      decoder of the local visualiser (visual_tron.py)

    The Python functions are embedded as executable Rocq functions.
    Integers are [Z] (Python ints are unbounded), lists are [list], and
    the state dictionary is a record whose fields are optional: a key may
    be absent, and [state.get(key, default)] then supplies the default.

    The state comes in two forms.  [Brain.State] has the types the
    docstring of [choose_move] gives the values: the board is a list of
    lists of ints (rows may differ in length), a trail is a list of pairs
    of ints, turn_count is an int.  [BrainJson.State] is the dictionary
    as it is decoded from the request, before anything is known about
    the shape of its values: an element of a trail is a list of ints of
    any length, and turn_count is an int or None.  [choose_move] is
    embedded on both, and the two embeddings agree on the states of the
    first form.

    A [str] is a [string]: ASCII text is itself, other text is its
    UTF-8 encoding.  The tests and splits of the code on ASCII
    substrings give the same on the encoding as on the text.  [Py.strip]
    and [Py.upper] are [str.strip] and [str.upper] on ASCII text; for
    text in general the two builtins are parameters of the decoder
    ([VisualTronText]).

    The exceptions the code can raise are explicit.  The functions of
    brain.py run in the monad [M], which pairs the outcome (a value or
    the exception raised) with the list of the board cells whose marker
    was looked up, in the order of the lookups: the list is what the
    statements about the cells that are tested speak of. *)

From Stdlib Require Import ZArith List String Ascii Bool Lia.
Import ListNotations.
Open Scope string_scope.
Open Scope list_scope.
Open Scope Z_scope.

(** ** The fragment of the Python runtime the two files rely on *)
Module Py.

Inductive exn : Type :=
| IndexError
| KeyError
| ZeroDivisionError
| ValueError
| TypeError.

Inductive result (A : Type) : Type :=
| Ok (a : A)
| Raise (e : exn).
Arguments Ok {A} a.
Arguments Raise {A} e.

(** A board cell, as the pair (x, y): column, row. *)
Definition cell : Type := (Z * Z)%type.

(** A computation: the cells looked up so far, and the outcome. *)
Definition M (A : Type) : Type := (list cell * result A)%type.

Definition ret {A} (a : A) : M A := ([], Ok a).
Definition lift {A} (r : result A) : M A := ([], r).
(** Records that the marker of [c] is about to be looked up. *)
Definition tell (c : cell) : M unit := ([c], Ok tt).

Definition bind {A B} (m : M A) (k : A -> M B) : M B :=
  match m with
  | (t, Raise e) => (t, Raise e)
  | (t, Ok a) => let (t', r) := k a in (t ++ t', r)
  end.

Definition reads {A} (m : M A) : list cell := fst m.
Definition outcome {A} (m : M A) : result A := snd m.

(** [len(l)] *)
Definition len {A} (l : list A) : Z := Z.of_nat (List.length l).

(** Truth value of a list: [not l] is [negb (truthy l)]. *)
Definition truthy {A} (l : list A) : bool :=
  match l with
  | [] => false
  | _ :: _ => true
  end.

(** [l[i]]: a negative index counts from the end, an index outside
    [-len(l), len(l)) raises IndexError. *)
Definition getitem {A} (l : list A) (i : Z) : result A :=
  let j := if i <? 0 then i + len l else i in
  if j <? 0 then Raise IndexError
  else match nth_error l (Z.to_nat j) with
       | Some a => Ok a
       | None => Raise IndexError
       end.

(** [a % b] on ints: the result has the sign of [b], as [Z.modulo] has;
    [b = 0] raises ZeroDivisionError. *)
Definition mod_ (a b : Z) : result Z :=
  if b =? 0 then Raise ZeroDivisionError else Ok (a mod b).

(** [d[key]] on a dict given as its items. *)
Fixpoint dict_getitem {V} (d : list (string * V)) (key : string) : result V :=
  match d with
  | [] => Raise KeyError
  | (k, v) :: d' => if String.eqb k key then Ok v else dict_getitem d' key
  end.

(** [opt.get(key, default)] for a key that may be absent. *)
Definition get {A} (field : option A) (default : A) : A :=
  match field with
  | Some a => a
  | None => default
  end.

(** Sequencing of outcomes where no board is read: the first exception
    ends the computation. *)
Definition and_then {A B} (r : result A) (k : A -> result B) : result B :=
  match r with
  | Ok a => k a
  | Raise e => Raise e
  end.

(** [try: body except KeyError: handler] *)
Definition try_except_KeyError {A} (body : result A) (handler : result A)
  : result A :=
  match body with
  | Raise KeyError => handler
  | other => other
  end.

(** *** Strings.  The functions [isspace], [strip] and [upper] below are
    the builtins on ASCII text. *)

(** [c.isspace()] on ASCII: tab, line feed, vertical tab, form feed,
    carriage return, the four separators 28..31, and the space. *)
Definition isspace (c : ascii) : bool :=
  let n := nat_of_ascii c in
  ((9 <=? n) && (n <=? 13) || (28 <=? n) && (n <=? 32))%nat.

Fixpoint lstrip (s : string) : string :=
  match s with
  | EmptyString => EmptyString
  | String c s' => if isspace c then lstrip s' else s
  end.

Fixpoint rstrip (s : string) : string :=
  match s with
  | EmptyString => EmptyString
  | String c s' =>
      match rstrip s' with
      | EmptyString => if isspace c then EmptyString else String c EmptyString
      | r => String c r
      end
  end.

(** [s.strip()] *)
Definition strip (s : string) : string := rstrip (lstrip s).

Definition upper_char (c : ascii) : ascii :=
  let n := nat_of_ascii c in
  if ((97 <=? n) && (n <=? 122))%nat then ascii_of_nat (n - 32) else c.

(** [s.upper()] on ASCII *)
Fixpoint upper (s : string) : string :=
  match s with
  | EmptyString => EmptyString
  | String c s' => String (upper_char c) (upper s')
  end.

(** [sub in s] *)
Fixpoint contains (sub s : string) : bool :=
  if prefix sub s then true
  else match s with
       | EmptyString => false
       | String _ s' => contains sub s'
       end.

Fixpoint drop (n : nat) (s : string) : string :=
  match n, s with
  | O, _ => s
  | S n', String _ s' => drop n' s'
  | S _, EmptyString => EmptyString
  end.

(** The text before and after the first occurrence of [sep] in [s]. *)
Fixpoint partition_first (sep s : string) : option (string * string) :=
  if prefix sep s then Some (EmptyString, drop (String.length sep) s)
  else match s with
       | EmptyString => None
       | String c s' =>
           match partition_first sep s' with
           | Some (before, after) => Some (String c before, after)
           | None => None
           end
       end.

(** [s.split(sep, 1)]: at most one split, at the first occurrence of
    [sep]; an empty separator raises ValueError. *)
Definition split1 (s sep : string) : result (list string) :=
  match sep with
  | EmptyString => Raise ValueError
  | _ =>
      match partition_first sep s with
      | Some (before, after) => Ok [before; after]
      | None => Ok [s]
      end
  end.

(** [a, b = l]: anything but two items raises ValueError. *)
Definition unpack2 {A} (l : list A) : result (A * A) :=
  match l with
  | [a; b] => Ok (a, b)
  | _ => Raise ValueError
  end.

End Py.

Import Py.

Declare Scope py_scope.
Delimit Scope py_scope with py.
Notation "x <- c ;; k" := (bind c (fun x => k))
  (at level 61, c at next level, right associativity) : py_scope.
Notation "' pat <- c ;; k" := (bind c (fun x => match x with pat => k end))
  (at level 61, pat pattern, c at next level, right associativity) : py_scope.
Open Scope py_scope.

(** ** brain.py *)
Module Brain.

(** The state dictionary: the keys [choose_move] reads, and the further
    keys [build_state_from_game] writes.  [None] is an absent key.  An
    element [[x, y]] of a trail is a pair of ints, on which [int(...)]
    is the identity. *)
Record State : Type := mkState {
  board : option (list (list Z));
  agent1_trail : option (list (Z * Z));
  agent2_trail : option (list (Z * Z));
  agent1_length : option Z;
  agent2_length : option Z;
  agent1_alive : option bool;
  agent2_alive : option bool;
  agent1_boosts : option Z;
  agent2_boosts : option Z;
  turn_count : option Z;
  player_number : option Z
}.

Definition DIRECTION_VECTORS : list (string * (Z * Z)) :=
  [ ("UP",    (0, -1));
    ("DOWN",  (0,  1));
    ("LEFT",  (-1, 0));
    ("RIGHT", (1,  0)) ].

Definition _get_head_position (state : State) (player_number : Z)
  : M (Z * Z) :=
  let trail :=
    if player_number =? 1 then get (agent1_trail state) []
    else get (agent2_trail state) [] in
  if negb (truthy trail) then ret (0, 0)
  else
    head <- lift (getitem trail (-1)) ;;
    ret (fst head, snd head).

Definition _get_board_size (board : list (list Z)) : Z * Z :=
  match board with
  | [] => (0, 0)
  | row0 :: _ =>
      if negb (truthy row0) then (0, 0)
      else
        let height := len board in
        let width := len row0 in
        (width, height)
  end.

Definition _is_cell_safe (board : list (list Z)) (x y : Z) : M bool :=
  let height := len board in
  if height =? 0 then ret true
  else
    row0 <- lift (getitem board 0) ;;
    let width := len row0 in
    x <- lift (mod_ x width) ;;
    y <- lift (mod_ y height) ;;
    _ <- tell (x, y) ;;
    row <- lift (getitem board y) ;;
    cell_value <- lift (getitem row x) ;;
    ret (cell_value =? 0).

(** The body of the [for] loop of [_choose_safe_direction], over the
    directions that are still to be tried. *)
Fixpoint _choose_safe_direction_loop (board : list (list Z))
    (width height head_x head_y : Z) (preferred_order : list string)
  : M string :=
  match preferred_order with
  | [] => ret "RIGHT"
  | direction_name :: rest =>
      '(dx, dy) <- lift (dict_getitem DIRECTION_VECTORS direction_name) ;;
      new_x <- lift (mod_ (head_x + dx) width) ;;
      new_y <- lift (mod_ (head_y + dy) height) ;;
      safe <- _is_cell_safe board new_x new_y ;;
      if safe then ret direction_name
      else _choose_safe_direction_loop board width height head_x head_y rest
  end.

Definition _choose_safe_direction (board : list (list Z))
    (head_x head_y : Z) (preferred_order : list string) : M string :=
  let '(width, height) := _get_board_size board in
  if (width =? 0) || (height =? 0) then ret "RIGHT"
  else _choose_safe_direction_loop board width height head_x head_y
         preferred_order.

(** The [if]/[elif] chain on [pattern]. *)
Definition preferred_order_of (pattern : Z) : list string :=
  if pattern =? 0 then ["RIGHT"; "DOWN"; "UP"; "LEFT"]
  else if pattern =? 1 then ["DOWN"; "LEFT"; "RIGHT"; "UP"]
  else if pattern =? 2 then ["LEFT"; "UP"; "DOWN"; "RIGHT"]
  else ["UP"; "RIGHT"; "LEFT"; "DOWN"].

Definition choose_move (state : State) (boosts_remaining : Z)
    (player_number : Z) : M string :=
  let board := get (board state) [] in
  if negb (truthy board) then ret "RIGHT"
  else
    '(head_x, head_y) <- _get_head_position state player_number ;;
    let turn := get (turn_count state) 0 in
    pattern <- lift (mod_ turn 4) ;;
    let preferred_order := preferred_order_of pattern in
    direction_name <-
      _choose_safe_direction board head_x head_y preferred_order ;;
    let move := direction_name in
    ret move.

End Brain.

Import Brain.

(** ** brain.py on the dictionary as it is received *)
Module BrainJson.

(** A value that is an int or None. *)
Inductive int_or_None : Type :=
| Int (z : Z)
| None_.

(** The keys [choose_move] reads, with values of the shapes JSON gives
    them: an element of a trail is a list of ints of any length, and
    turn_count may be None.  [None] is an absent key. *)
Record State : Type := mkState {
  board : option (list (list Z));
  agent1_trail : option (list (list Z));
  agent2_trail : option (list (list Z));
  turn_count : option int_or_None
}.

(** [a % b] for an [a] that is an int or None: None raises TypeError. *)
Definition mod_value (a : int_or_None) (b : Z) : result Z :=
  match a with
  | Int z => mod_ z b
  | None_ => Raise TypeError
  end.

Definition _get_head_position (state : State) (player_number : Z)
  : M (Z * Z) :=
  let trail :=
    if player_number =? 1 then get (agent1_trail state) []
    else get (agent2_trail state) [] in
  if negb (truthy trail) then ret (0, 0)
  else
    head <- lift (getitem trail (-1)) ;;
    head_0 <- lift (getitem head 0) ;;
    head_1 <- lift (getitem head 1) ;;
    ret (head_0, head_1).

(** [_get_board_size], [_is_cell_safe] and [_choose_safe_direction] take
    the board and integers, and are those of [Brain]. *)
Definition choose_move (state : State) (boosts_remaining : Z)
    (player_number : Z) : M string :=
  let board := get (board state) [] in
  if negb (truthy board) then ret "RIGHT"
  else
    '(head_x, head_y) <- _get_head_position state player_number ;;
    let turn := get (turn_count state) (Int 0) in
    pattern <- lift (mod_value turn 4) ;;
    let preferred_order := preferred_order_of pattern in
    direction_name <-
      _choose_safe_direction board head_x head_y preferred_order ;;
    let move := direction_name in
    ret move.

End BrainJson.

(** ** visual_tron.py *)
Module VisualTron.

(** Modelled from the spec: the enumeration [Direction] of
    case_closed_game, which visual_tron.py imports and which is not among
    the sources.  The spec's data model has one member per named unit
    vector: UP, DOWN, LEFT and RIGHT. *)
Inductive Direction : Type := UP | DOWN | LEFT | RIGHT.

Definition Direction_members : list (string * Direction) :=
  [ ("UP", UP); ("DOWN", DOWN); ("LEFT", LEFT); ("RIGHT", RIGHT) ].

(** [Direction[name]]: the member of that name, KeyError when there is
    none. *)
Definition Direction_getitem (name : string) : result Direction :=
  dict_getitem Direction_members name.

Definition move_str_to_direction_and_boost (move_str : string)
  : result (Direction * bool) :=
  let move_str := upper (strip move_str) in
  and_then
    (if contains ":BOOST" move_str then
       and_then (split1 move_str ":") (fun parts =>
       and_then (unpack2 parts) (fun '(dir_part, _) =>
       Ok (dir_part, true)))
     else Ok (move_str, false))
    (fun '(dir_part, use_boost) =>
       try_except_KeyError
         (and_then (Direction_getitem dir_part) (fun direction_enum =>
          Ok (direction_enum, use_boost)))
         (Ok (RIGHT, false))).

End VisualTron.

Import VisualTron.

(** ** visual_tron.py: the decoder on any text *)
Module VisualTronText.

Section Builtins.
(** [str.strip] and [str.upper], whose tables of whitespace and of
    uppercase forms belong to the Python runtime. *)
Variables str_strip str_upper : string -> string.

Definition move_str_to_direction_and_boost (move_str : string)
  : result (Direction * bool) :=
  let move_str := str_upper (str_strip move_str) in
  and_then
    (if contains ":BOOST" move_str then
       and_then (split1 move_str ":") (fun parts =>
       and_then (unpack2 parts) (fun '(dir_part, _) =>
       Ok (dir_part, true)))
     else Ok (move_str, false))
    (fun '(dir_part, use_boost) =>
       try_except_KeyError
         (and_then (Direction_getitem dir_part) (fun direction_enum =>
          Ok (direction_enum, use_boost)))
         (Ok (RIGHT, false))).

End Builtins.

End VisualTronText.

(** ** visual_tron.py: the state built from a game, and the drawing *)

(** The classes [Game], [GameBoard] and [Agent] live in case_closed_game,
    which is not among the sources.  These records hold the attributes
    visual_tron.py reads from them, with the types the state dictionary
    gives their values. *)
Module CaseClosedGame.

Record GameBoard : Type := mkGameBoard {
  grid : list (list Z);
  height : Z;
  width : Z
}.

Record Agent : Type := mkAgent {
  trail : list (Z * Z);
  length : Z;
  alive : bool;
  boosts_remaining : Z
}.

Record Game : Type := mkGame {
  board : GameBoard;
  agent1 : Agent;
  agent2 : Agent;
  turns : Z
}.

End CaseClosedGame.

Module VisualTronUI.

Definition CELL_EMPTY : string := ".".
Definition AGENT1_TRAIL_CHAR : string := "☼".
Definition AGENT2_TRAIL_CHAR : string := "$".
Definition AGENT1_HEAD_CHAR : string := "◉".
Definition AGENT2_HEAD_CHAR : string := "@".

(** [range(n)]: 0, 1, ..., n-1, nothing for [n <= 0]. *)
Definition range (n : Z) : list Z := map Z.of_nat (seq 0 (Z.to_nat n)).

(** [sep.join(parts)] *)
Definition join (sep : string) (parts : list string) : string :=
  String.concat sep parts.

(** [x == h] for an int [x] and an [h] that is an int or None. *)
Definition eq_int (x : Z) (h : option Z) : bool :=
  match h with
  | Some v => x =? v
  | None => false
  end.

Definition is_not_None {A} (h : option A) : bool :=
  match h with
  | Some _ => true
  | None => false
  end.

(** [any((tx == x and ty == y) for (tx, ty) in trail_list)] *)
Definition any_at (trail_list : list (Z * Z)) (x y : Z) : bool :=
  existsb (fun '(tx, ty) => (tx =? x) && (ty =? y)) trail_list.

(** The head coordinates [draw_board] computes from a trail: the last
    element, or None twice for an empty trail. *)
Definition head_or_None (trail_list : list (Z * Z))
  : result (option Z * option Z) :=
  if truthy trail_list then
    and_then (getitem trail_list (-1)) (fun last_item =>
    Ok (Some (fst last_item), Some (snd last_item)))
  else Ok (None, None).

Section Colorama.
(** The escape sequences [Fore.BLUE], [Fore.YELLOW] and
    [Style.RESET_ALL] of colorama. *)
Variables Fore_BLUE Fore_YELLOW Style_RESET_ALL : string.

(** The body of the loop over [x]: the text of the cell (x, y). *)
Definition draw_cell (a1_trail_list a2_trail_list : list (Z * Z))
    (h1x h1y h2x h2y : option Z) (x y : Z) : string :=
  if is_not_None h1x && eq_int x h1x && eq_int y h1y then
    (Fore_BLUE ++ AGENT1_HEAD_CHAR ++ Style_RESET_ALL)%string
  else if is_not_None h2x && eq_int x h2x && eq_int y h2y then
    (Fore_YELLOW ++ AGENT2_HEAD_CHAR ++ Style_RESET_ALL)%string
  else
    let in_a1_trail := any_at a1_trail_list x y in
    let in_a2_trail := any_at a2_trail_list x y in
    if in_a1_trail then
      (Fore_BLUE ++ AGENT1_TRAIL_CHAR ++ Style_RESET_ALL)%string
    else if in_a2_trail then
      (Fore_YELLOW ++ AGENT2_TRAIL_CHAR ++ Style_RESET_ALL)%string
    else CELL_EMPTY.

(** The lists [row_cells] of [draw_board], one per value of [y], in the
    order of the loop. *)
Definition draw_rows (game : CaseClosedGame.Game)
  : result (list (list string)) :=
  let board := CaseClosedGame.board game in
  let a1_trail_list := CaseClosedGame.trail (CaseClosedGame.agent1 game) in
  let a2_trail_list := CaseClosedGame.trail (CaseClosedGame.agent2 game) in
  and_then (head_or_None a1_trail_list) (fun '(h1x, h1y) =>
  and_then (head_or_None a2_trail_list) (fun '(h2x, h2y) =>
  Ok (map (fun y =>
             map (fun x =>
                    draw_cell a1_trail_list a2_trail_list h1x h1y h2x h2y
                      x y)
               (range (CaseClosedGame.width board)))
        (range (CaseClosedGame.height board))))).

(** [draw_board]: the lines it prints, in order. *)
Definition draw_board (game : CaseClosedGame.Game) : result (list string) :=
  and_then (draw_rows game) (fun rows => Ok (map (join " ") rows)).

End Colorama.

Definition build_state_from_game (game : CaseClosedGame.Game)
    (player_number : Z) : State :=
  let agent1_trail :=
    map (fun '(x, y) => (x, y))
      (CaseClosedGame.trail (CaseClosedGame.agent1 game)) in
  let agent2_trail :=
    map (fun '(x, y) => (x, y))
      (CaseClosedGame.trail (CaseClosedGame.agent2 game)) in
  mkState
    (Some (CaseClosedGame.grid (CaseClosedGame.board game)))
    (Some agent1_trail)
    (Some agent2_trail)
    (Some (CaseClosedGame.length (CaseClosedGame.agent1 game)))
    (Some (CaseClosedGame.length (CaseClosedGame.agent2 game)))
    (Some (CaseClosedGame.alive (CaseClosedGame.agent1 game)))
    (Some (CaseClosedGame.alive (CaseClosedGame.agent2 game)))
    (Some (CaseClosedGame.boosts_remaining (CaseClosedGame.agent1 game)))
    (Some (CaseClosedGame.boosts_remaining (CaseClosedGame.agent2 game)))
    (Some (CaseClosedGame.turns game))
    (Some player_number).

End VisualTronUI.

Import VisualTronUI.

(** ** Vocabulary of the statements *)

(** The spec's table of unit vectors (data model, Direction). *)
Definition unit_vector (direction_name : string) : Z * Z :=
  if String.eqb direction_name "UP" then (0, -1)
  else if String.eqb direction_name "DOWN" then (0, 1)
  else if String.eqb direction_name "LEFT" then (-1, 0)
  else (1, 0).

Definition direction_names : list string := ["UP"; "DOWN"; "LEFT"; "RIGHT"].

(** The spec's candidate cell: the head plus the unit vector of the
    direction, each axis reduced modulo the board's width and height. *)
Definition neighbour (width height : Z) (head : cell)
    (direction_name : string) : cell :=
  ((fst head + fst (unit_vector direction_name)) mod width,
   (snd head + snd (unit_vector direction_name)) mod height).

(** The marker [board[y][x]] of the cell (x, y). *)
Definition marker (board : list (list Z)) (c : cell) : result Z :=
  and_then (getitem board (snd c)) (fun row => getitem row (fst c)).

(** A direction whose candidate cell holds a marker other than 0. *)
Definition blocked (board : list (list Z)) (width height : Z) (head : cell)
    (direction_name : string) : Prop :=
  exists v, marker board (neighbour width height head direction_name) = Ok v
            /\ v <> 0.

(** The guard of [_choose_safe_direction]: no usable board. *)
Definition degenerate (board : list (list Z)) : bool :=
  let '(width, height) := _get_board_size board in
  (width =? 0) || (height =? 0).

(** No row is shorter than the first one. *)
Definition no_short_row (board : list (list Z)) : bool :=
  forallb (fun row => len (hd [] board) <=? len row) board.

(** Every row is as long as the first one. *)
Definition rectangular (board : list (list Z)) : bool :=
  forallb (fun row => len row =? len (hd [] board)) board.

(** The trail [_get_head_position] reads for a player. *)
Definition own_trail (state : State) (player_number : Z) : list (Z * Z) :=
  get (if player_number =? 1 then agent1_trail state
       else agent2_trail state) [].

(** The head the spec defines: the last element of the trail, the origin
    for an empty trail. *)
Definition head_of (state : State) (player_number : Z) : cell :=
  last (own_trail state player_number) (0, 0).

(** The state with the key [turn_count] set to [t]. *)
Definition set_turn_count (state : State) (t : Z) : State :=
  mkState (board state) (agent1_trail state) (agent2_trail state)
    (agent1_length state) (agent2_length state)
    (agent1_alive state) (agent2_alive state)
    (agent1_boosts state) (agent2_boosts state)
    (Some t) (player_number state).

(** The direction part of a move string: the text before the first colon
    when the string holds the boost suffix, the whole string otherwise. *)
Definition direction_part (text : string) : string :=
  if contains ":BOOST" text then
    match partition_first ":" text with
    | Some (before, _) => before
    | None => text
    end
  else text.

(** The trail element at the head can be read: the trail of the
    requesting player is empty or absent, or its last element has at
    least two coordinates. *)
Definition head_readable (state : BrainJson.State) (player_number : Z)
  : bool :=
  let trail :=
    get (if player_number =? 1 then BrainJson.agent1_trail state
         else BrainJson.agent2_trail state) [] in
  match trail with
  | [] => true
  | _ :: _ =>
      match last trail [] with
      | _ :: _ :: _ => true
      | _ => false
      end
  end.

(** turn_count is absent or an int. *)
Definition turn_readable (state : BrainJson.State) : bool :=
  match BrainJson.turn_count state with
  | Some BrainJson.None_ => false
  | _ => true
  end.

(** A state of the documented types as a dictionary: a pair is the list
    of its two coordinates. *)
Definition to_json (state : State) : BrainJson.State :=
  let pairs := option_map (map (fun '(x, y) => [x; y])) in
  BrainJson.mkState (board state)
    (pairs (agent1_trail state)) (pairs (agent2_trail state))
    (option_map BrainJson.Int (turn_count state)).

(** The text is ASCII: every character code is below 128. *)
Fixpoint is_ascii (text : string) : bool :=
  match text with
  | EmptyString => true
  | String c rest => (nat_of_ascii c <? 128)%nat && is_ascii rest
  end.

(** ** Sample states *)

(** The board with a short row, as a dictionary. *)
Definition ragged_json : BrainJson.State :=
  BrainJson.mkState (Some [[1; 1]; [1]]) (Some [[1; 0]]) (Some [])
    (Some (BrainJson.Int 0)).

(** A 3 x 3 board with equal rows; the one element of the trail of
    player 1 has a single coordinate. *)
Definition short_head_json : BrainJson.State :=
  BrainJson.mkState (Some [[0; 0; 0]; [0; 0; 0]; [0; 0; 0]])
    (Some [[1]]) (Some []) (Some (BrainJson.Int 0)).

(** The same board with a trail of pairs, and None as turn_count. *)
Definition null_turn_json : BrainJson.State :=
  BrainJson.mkState (Some [[0; 0; 0]; [0; 0; 0]; [0; 0; 0]])
    (Some [[1; 1]]) (Some []) (Some BrainJson.None_).

(** An empty board: the unreadable head and the None of turn_count are
    not reached. *)
Definition empty_board_json : BrainJson.State :=
  BrainJson.mkState (Some []) (Some [[1]]) None (Some BrainJson.None_).


(** A state with the four keys [choose_move] reads. *)
Definition snapshot (grid : list (list Z)) (trail1 trail2 : list (Z * Z))
    (turn : Z) : State :=
  mkState (Some grid) (Some trail1) (Some trail2)
    None None None None None None (Some turn) None.

(** The 3 x 3 empty board of the spec's scenario, player 1 at (1,1). *)
Definition scenario_state : State :=
  snapshot [[0; 0; 0]; [0; 0; 0]; [0; 0; 0]] [(1, 1)] [] 0.

(** The spec's second scenario: player 1 in the rightmost column, at
    (2,1), and the cell (0,1) it wraps to on the right taken. *)
Definition wrap_state : State :=
  snapshot [[0; 0; 0]; [1; 0; 1]; [0; 0; 0]] [(2, 1)] [(0, 1)] 0.

(** A board whose second row is shorter than its first. *)
Definition ragged_state : State :=
  snapshot [[1; 1]; [1]] [(1, 0)] [] 0.

(** Player 1 at (1,1) with the cell to the right free and the other
    three neighbours taken; the turn puts RIGHT last in the order. *)
Definition corridor_state : State :=
  snapshot [[0; 1; 0]; [1; 1; 0]; [0; 1; 0]] [(0, 1); (1, 1)] [(0, 0)] 2.

(** Player 1 at (1,1) with the four neighbours taken. *)
Definition boxed_state : State :=
  snapshot [[0; 1; 0]; [1; 1; 1]; [0; 1; 0]] [(1, 1)] [(2, 2)] 5.

(** A 3 x 2 board, no trail for either player, so the head is the
    origin; the turn puts UP first in the order. *)
Definition origin_state : State :=
  snapshot [[0; 0; 0]; [1; 1; 1]] [] [] 3.

(** A grid whose first row is empty. *)
Definition hollow_state : State :=
  snapshot [[]; [1; 0]] [(0, 1)] [(1, 1)] 7.

(** The first scenario with every key [choose_move] does not read for
    player 1 changed: same board, same trail of player 1, same turn. *)
Definition scenario_state' : State :=
  mkState (Some [[0; 0; 0]; [0; 0; 0]; [0; 0; 0]]) (Some [(1, 1)])
    (Some [(2, 2); (2, 0)]) (Some 1) (Some 2) (Some true) (Some false)
    (Some 3) (Some 0) (Some 0) (Some 1).

(** ** Sample games *)

(** A 4 x 3 game on turn 6: agent 1 has walked (0,0), (1,0), (1,1),
    agent 2 has walked (3,2), (2,2). *)
Definition sample_game : CaseClosedGame.Game :=
  CaseClosedGame.mkGame
    (CaseClosedGame.mkGameBoard
       [[1; 1; 0; 0]; [0; 1; 0; 0]; [0; 0; 1; 1]] 3 4)
    (CaseClosedGame.mkAgent [(0, 0); (1, 0); (1, 1)] 3 true 3)
    (CaseClosedGame.mkAgent [(3, 2); (2, 2)] 2 true 1)
    6.

(** The same board after a head-on collision: both heads on (2,1). *)
Definition collision_game : CaseClosedGame.Game :=
  CaseClosedGame.mkGame
    (CaseClosedGame.mkGameBoard
       [[1; 1; 0; 0]; [0; 1; 1; 0]; [0; 0; 1; 1]] 3 4)
    (CaseClosedGame.mkAgent [(0, 0); (1, 0); (1, 1); (2, 1)] 4 false 3)
    (CaseClosedGame.mkAgent [(3, 2); (2, 2); (2, 1)] 3 false 1)
    7.

(** ** The monad *)
Section MonadLaws.
Context {A B : Type}.

Lemma bind_ret_l (a : A) (k : A -> M B) : bind (ret a) k = k a.
Proof. unfold bind, ret. destruct (k a) as [t r]. reflexivity. Qed.

Lemma bind_lift_ok (a : A) (k : A -> M B) : bind (lift (Ok a)) k = k a.
Proof. apply bind_ret_l. Qed.

Lemma bind_tell (c : cell) (k : unit -> M B) :
  bind (tell c) k = (c :: fst (k tt), snd (k tt)).
Proof. unfold bind, tell. destruct (k tt) as [t r]. reflexivity. Qed.

Lemma bind_ret_r (m : M A) : bind m ret = m.
Proof.
  destruct m as [t [a | e]]; unfold bind, ret; try reflexivity.
  now rewrite app_nil_r.
Qed.
End MonadLaws.

(** ** Lists and indexing *)
Section Indexing.
Context {A : Type}.

Lemma len_nonneg (l : list A) : 0 <= len l.
Proof. unfold len. lia. Qed.

Lemma len_cons (a : A) (l : list A) : len (a :: l) = len l + 1.
Proof. unfold len. cbn [List.length]. lia. Qed.

Lemma getitem_nth_error (l : list A) (i : Z) :
  0 <= i ->
  getitem l i = match nth_error l (Z.to_nat i) with
                | Some a => Ok a
                | None => Raise IndexError
                end.
Proof.
  intros Hi. unfold getitem.
  destruct (i <? 0) eqn:E; [apply Z.ltb_lt in E; lia |].
  now rewrite E.
Qed.

Lemma getitem_in_range (l : list A) (i : Z) :
  0 <= i < len l -> exists a, getitem l i = Ok a.
Proof.
  intros [Hi Hl]. rewrite getitem_nth_error by exact Hi.
  destruct (nth_error l (Z.to_nat i)) as [a |] eqn:E; [now exists a |].
  apply nth_error_None in E. unfold len in Hl. lia.
Qed.

Lemma getitem_last (l : list A) (d : A) :
  l <> [] -> getitem l (-1) = Ok (last l d).
Proof.
  intros Hne.
  destruct (exists_last Hne) as [l' [a ->]].
  rewrite last_last. unfold getitem. cbn [Z.ltb Z.compare].
  assert (Hlen : len (l' ++ [a]) = Z.of_nat (List.length l') + 1).
  { unfold len. rewrite length_app. cbn [List.length]. lia. }
  rewrite Hlen.
  destruct (-1 + (Z.of_nat (List.length l') + 1) <? 0) eqn:E;
    [apply Z.ltb_lt in E; lia |].
  replace (Z.to_nat (-1 + (Z.of_nat (List.length l') + 1)))
    with (List.length l' + 0)%nat by lia.
  now rewrite nth_error_app2, Nat.add_comm, Nat.add_sub by lia.
Qed.
End Indexing.

(** ** Steps of the move selection *)

Lemma DIRECTION_VECTORS_unit_vector (direction_name : string) :
  In direction_name direction_names ->
  dict_getitem DIRECTION_VECTORS direction_name
  = Ok (unit_vector direction_name).
Proof.
  unfold direction_names. cbn [In].
  intros [<- | [<- | [<- | [<- | []]]]]; reflexivity.
Qed.

Lemma preferred_order_of_names (pattern : Z) :
  Forall (fun name => In name direction_names) (preferred_order_of pattern).
Proof.
  unfold preferred_order_of, direction_names.
  destruct (pattern =? 0); [| destruct (pattern =? 1);
                              [| destruct (pattern =? 2)]];
    repeat (apply Forall_cons || apply Forall_nil); cbn [In]; auto 6.
Qed.

Lemma get_head_position_run (state : State) (player_number : Z) :
  _get_head_position state player_number
  = ret (head_of state player_number).
Proof.
  unfold _get_head_position, head_of, own_trail.
  destruct (player_number =? 1).
  - destruct (get (agent1_trail state) []) as [| h t] eqn:E;
      [reflexivity |].
    cbn [truthy negb].
    rewrite (getitem_last (h :: t) (0, 0)) by discriminate.
    rewrite bind_lift_ok. now destruct (last (h :: t) (0, 0)).
  - destruct (get (agent2_trail state) []) as [| h t] eqn:E;
      [reflexivity |].
    cbn [truthy negb].
    rewrite (getitem_last (h :: t) (0, 0)) by discriminate.
    rewrite bind_lift_ok. now destruct (last (h :: t) (0, 0)).
Qed.

Lemma board_size_cases (board : list (list Z)) :
  (degenerate board = true /\ _get_board_size board = (0, 0)
   /\ (board = [] \/ exists rest, board = [] :: rest))
  \/ (degenerate board = false
      /\ exists row0 rest, board = row0 :: rest /\ row0 <> []
         /\ _get_board_size board = (len row0, len board)
         /\ 0 < len row0 /\ 0 < len board).
Proof.
  unfold degenerate.
  destruct board as [| row0 rest]; [left; cbn; auto |].
  destruct row0 as [| v row0].
  - left. cbn. eauto.
  - right. cbn [_get_board_size truthy negb].
    assert (Hw : 0 < len (v :: row0)) by (rewrite len_cons; pose proof (len_nonneg row0); lia).
    assert (Hh : 0 < len ((v :: row0) :: rest)) by (rewrite len_cons; pose proof (len_nonneg rest); lia).
    split.
    + apply orb_false_iff. split; apply Z.eqb_neq; lia.
    + exists (v :: row0), rest. repeat split; auto; discriminate.
Qed.

(** One call of [_is_cell_safe] on a usable board: the cell that is read,
    and the answer or the exception of the read. *)
Lemma is_cell_safe_run (board : list (list Z)) (width height x y : Z) :
  degenerate board = false ->
  _get_board_size board = (width, height) ->
  _is_cell_safe board x y
  = ([(x mod width, y mod height)],
     and_then (marker board (x mod width, y mod height))
       (fun cell_value => Ok (cell_value =? 0))).
Proof.
  intros Hd Hs.
  destruct (board_size_cases board) as [[Hd' _] | (_ & row0 & rest & -> & Hne & Hs' & Hw & Hh)];
    [congruence |].
  rewrite Hs in Hs'. injection Hs' as -> ->.
  unfold _is_cell_safe.
  destruct (len (row0 :: rest) =? 0) eqn:E; [apply Z.eqb_eq in E; lia |].
  change (getitem (row0 :: rest) 0) with (Ok (A := list Z) row0).
  rewrite bind_lift_ok. unfold mod_.
  destruct (len row0 =? 0) eqn:E1; [apply Z.eqb_eq in E1; lia |].
  rewrite bind_lift_ok, E, bind_lift_ok.
  rewrite bind_tell.
  unfold marker, and_then. cbn [fst snd].
  destruct (getitem (row0 :: rest) (y mod len (row0 :: rest))) as [row | e];
    [rewrite bind_lift_ok | reflexivity].
  destruct (getitem row (x mod len row0)) as [v | e]; reflexivity.
Qed.

(** One turn of the loop of [_choose_safe_direction]. *)
Lemma loop_step (board : list (list Z)) (width height head_x head_y : Z)
    (direction_name : string) (rest : list string) :
  degenerate board = false ->
  _get_board_size board = (width, height) ->
  In direction_name direction_names ->
  _choose_safe_direction_loop board width height head_x head_y
    (direction_name :: rest)
  = let c := neighbour width height (head_x, head_y) direction_name in
    match marker board c with
    | Raise e => ([c], Raise e)
    | Ok cell_value =>
        if cell_value =? 0 then ([c], Ok direction_name)
        else
          let (t, r) := _choose_safe_direction_loop board width height
                          head_x head_y rest in
          (c :: t, r)
    end.
Proof.
  intros Hd Hs Hin.
  destruct (board_size_cases board) as [[Hd' _] | (_ & row0 & tl & Hb & Hne & Hs' & Hw & Hh)];
    [congruence |].
  assert (Hwh : width = len row0 /\ height = len board) by (split; congruence).
  destruct Hwh as [Ew Eh].
  cbn [_choose_safe_direction_loop].
  rewrite (DIRECTION_VECTORS_unit_vector _ Hin), bind_lift_ok.
  destruct (unit_vector direction_name) as [dx dy] eqn:Ev.
  unfold mod_.
  destruct (width =? 0) eqn:E1; [apply Z.eqb_eq in E1; lia |].
  destruct (height =? 0) eqn:E2; [apply Z.eqb_eq in E2; lia |].
  rewrite !bind_lift_ok.
  rewrite (is_cell_safe_run board width height) by assumption.
  rewrite !Z.mod_mod by (apply Z.eqb_neq; assumption).
  unfold neighbour. rewrite Ev. cbn [fst snd].
  cbv zeta.
  destruct (marker board ((head_x + dx) mod width, (head_y + dy) mod height))
    as [v | e]; cbn [and_then bind]; [| reflexivity].
  destruct (v =? 0); [reflexivity |].
  destruct (_choose_safe_direction_loop board width height head_x head_y rest).
  reflexivity.
Qed.

Lemma size_positive (board : list (list Z)) (width height : Z) :
  degenerate board = false ->
  _get_board_size board = (width, height) ->
  0 < width /\ 0 < height.
Proof.
  intros Hboard Hsize.
  destruct (board_size_cases board)
    as [[Hd' _] | (_ & row0 & tl & Hb & Hne & Hs' & Hw & Hh)];
    [congruence |].
  rewrite Hsize in Hs'. injection Hs' as -> ->. now split.
Qed.

Section Loop.
Variable board : list (list Z).
Variables width height head_x head_y : Z.
Hypothesis Hboard : degenerate board = false.
Hypothesis Hsize : _get_board_size board = (width, height).

Let head : cell := (head_x, head_y).
Let loop := _choose_safe_direction_loop board width height head_x head_y.

Let blocked := blocked board width height head.

Lemma neighbour_in_range (direction_name : string) :
  let c := neighbour width height head direction_name in
  0 <= fst c < width /\ 0 <= snd c < height.
Proof.
  destruct (size_positive board width height Hboard Hsize) as [Hw Hh].
  unfold neighbour. cbn [fst snd].
  split; apply Z.mod_pos_bound; assumption.
Qed.

(** The cells are read in the order of the preferences, one per
    direction, up to the direction that ends the loop. *)
Lemma loop_reads (order : list string) :
  Forall (fun name => In name direction_names) order ->
  exists k : nat,
    (k <= List.length order)%nat
    /\ (order <> [] -> (1 <= k)%nat)
    /\ reads (loop order)
       = map (neighbour width height head) (firstn k order).
Proof.
  induction 1 as [| name rest Hname Hrest IH].
  - exists 0%nat. split; [reflexivity |].
    split; [intros Hne; now contradiction Hne | reflexivity].
  - subst loop. rewrite loop_step by assumption. cbv zeta.
    fold head.
    destruct (marker board (neighbour width height head name)) as [v | e].
    + destruct (v =? 0).
      * exists 1%nat. cbn [List.length firstn map reads fst].
        repeat split; auto; lia.
      * destruct IH as (k & Hk & _ & IH).
        exists (S k). cbn [List.length firstn map].
        destruct (_choose_safe_direction_loop board width height
                    head_x head_y rest) as [t r].
        cbn [reads fst] in *. rewrite IH.
        repeat split; auto; lia.
    + exists 1%nat. cbn [List.length firstn map reads fst].
      repeat split; auto; lia.
Qed.

(** When every read succeeds the loop answers with a direction name. *)
Lemma loop_outcome (order : list string) :
  Forall (fun name => In name direction_names) order ->
  (forall c, 0 <= fst c < width -> 0 <= snd c < height ->
             exists v, marker board c = Ok v) ->
  exists name, In name direction_names /\ outcome (loop order) = Ok name.
Proof.
  intros Hnames Hcells.
  induction Hnames as [| name rest Hname Hrest IH].
  - exists "RIGHT". split; [unfold direction_names; cbn [In]; auto 6 |].
    reflexivity.
  - subst loop. rewrite loop_step by assumption. cbv zeta.
    destruct (neighbour_in_range name) as [Hx Hy]. fold head.
    destruct (Hcells _ Hx Hy) as [v ->].
    destruct (v =? 0); [now exists name |].
    destruct IH as (d & Hd & IH). exists d. split; [assumption |].
    destruct (_choose_safe_direction_loop board width height
                head_x head_y rest) as [t r].
    exact IH.
Qed.

(** With every direction blocked the loop runs to its end and the
    fallback is returned. *)
Lemma loop_none_safe (order : list string) :
  Forall (fun n => In n direction_names /\ blocked n) order ->
  loop order = (map (neighbour width height head) order, Ok "RIGHT").
Proof.
  induction 1 as [| n order [Hn (v & Hv & Hnz)] _ IH]; [reflexivity |].
  subst loop. rewrite loop_step by assumption. cbv zeta.
  fold head. rewrite Hv.
  destruct (v =? 0) eqn:E; [apply Z.eqb_eq in E; contradiction |].
  now rewrite IH.
Qed.

Lemma choose_safe_direction_usable (order : list string) :
  _choose_safe_direction board head_x head_y order = loop order.
Proof.
  unfold _choose_safe_direction. rewrite Hsize.
  unfold degenerate in Hboard. rewrite Hsize in Hboard.
  now rewrite Hboard.
Qed.
End Loop.

Lemma choose_safe_direction_degenerate (board : list (list Z))
    (head_x head_y : Z) (order : list string) :
  degenerate board = true ->
  _choose_safe_direction board head_x head_y order = ret "RIGHT".
Proof.
  unfold degenerate, _choose_safe_direction.
  destruct (_get_board_size board) as [width height]. now intros ->.
Qed.

(** [choose_move] without its plumbing: the guard on the board, then the
    choice from the head and the order of the turn. *)
Lemma choose_move_run (state : State) (boosts_remaining player_number : Z) :
  choose_move state boosts_remaining player_number
  = if negb (truthy (get (board state) [])) then ret "RIGHT"
    else _choose_safe_direction (get (board state) [])
           (fst (head_of state player_number))
           (snd (head_of state player_number))
           (preferred_order_of (get (turn_count state) 0 mod 4)).
Proof.
  unfold choose_move.
  destruct (negb (truthy (get (board state) []))); [reflexivity |].
  rewrite get_head_position_run, bind_ret_l.
  destruct (head_of state player_number) as [head_x head_y].
  change (mod_ (get (turn_count state) 0) 4)
    with (Ok (get (turn_count state) 0 mod 4)).
  rewrite bind_lift_ok. cbv zeta. apply bind_ret_r.
Qed.

(** A rectangular board, the board of the spec's data model, has no
    short row. *)
Lemma rectangular_no_short_row (board : list (list Z)) :
  rectangular board = true -> no_short_row board = true.
Proof.
  unfold rectangular, no_short_row. rewrite !forallb_forall.
  intros Hrect row Hin. specialize (Hrect row Hin).
  apply Z.eqb_eq in Hrect. apply Z.leb_le. lia.
Qed.

(** Where no row is shorter than the first, every cell within the size
    of the board holds a marker. *)
Lemma marker_defined (board : list (list Z)) (width height : Z)
    (c : cell) :
  no_short_row board = true ->
  degenerate board = false ->
  _get_board_size board = (width, height) ->
  0 <= fst c < width -> 0 <= snd c < height ->
  exists v, marker board c = Ok v.
Proof.
  intros Hrows Hd Hs Hx Hy.
  destruct (board_size_cases board)
    as [[Hd' _] | (_ & row0 & tl & Hb & Hne & Hs' & Hw & Hh)];
    [congruence |].
  rewrite Hs in Hs'. injection Hs' as -> ->.
  unfold marker, and_then.
  rewrite getitem_nth_error by lia.
  destruct (nth_error board (Z.to_nat (snd c))) as [row |] eqn:E.
  - apply nth_error_In in E.
    unfold no_short_row in Hrows. rewrite forallb_forall in Hrows.
    specialize (Hrows row E). apply Z.leb_le in Hrows.
    rewrite Hb in Hrows. cbn [hd] in Hrows.
    apply getitem_in_range. lia.
  - apply nth_error_None in E. unfold len in Hy. lia.
Qed.

Lemma preferred_order_complete (pattern : Z) (name : string) :
  In name direction_names -> In name (preferred_order_of pattern).
Proof.
  unfold preferred_order_of, direction_names.
  destruct (pattern =? 0); [| destruct (pattern =? 1);
                              [| destruct (pattern =? 2)]];
    cbn [In]; intros [<- | [<- | [<- | [<- | []]]]]; auto 6.
Qed.

Lemma preferred_order_length (pattern : Z) :
  List.length (preferred_order_of pattern) = 4%nat.
Proof.
  unfold preferred_order_of.
  destruct (pattern =? 0); [| destruct (pattern =? 1);
                              [| destruct (pattern =? 2)]]; reflexivity.
Qed.

(** The loop returns the one direction whose cell holds 0, wherever it
    stands in the order. *)
Lemma loop_only_safe (board : list (list Z))
    (width height head_x head_y : Z) (name : string) (order : list string) :
  degenerate board = false ->
  _get_board_size board = (width, height) ->
  Forall (fun n => In n direction_names) order ->
  In name order ->
  marker board (neighbour width height (head_x, head_y) name) = Ok 0 ->
  (forall other, In other order -> other <> name ->
                 blocked board width height (head_x, head_y) other) ->
  outcome (_choose_safe_direction_loop board width height head_x head_y
             order) = Ok name.
Proof.
  intros Hd Hs Hnames Hin Hsafe Hothers.
  induction Hnames as [| n rest Hn Hrest IH]; [contradiction Hin |].
  rewrite loop_step by assumption. cbv zeta.
  destruct (string_dec n name) as [-> | Hneq].
  - now rewrite Hsafe.
  - destruct (Hothers n (or_introl eq_refl) Hneq) as (v & -> & Hnz).
    destruct (v =? 0) eqn:E; [apply Z.eqb_eq in E; contradiction |].
    destruct Hin as [Hin | Hin]; [contradiction |].
    specialize (IH Hin (fun other Ho => Hothers other (or_intror Ho))).
    destruct (_choose_safe_direction_loop board width height
                head_x head_y rest) as [t r].
    exact IH.
Qed.

Lemma usable_truthy (board : list (list Z)) :
  degenerate board = false -> negb (truthy board) = false.
Proof. destruct board; [discriminate | reflexivity]. Qed.

(** Opens a proof about [choose_move] on a usable board: past the two
    guards, into the loop, with the head split into its coordinates. *)
Ltac enter_loop Hb Hd Hs :=
  rewrite choose_move_run, Hb; cbn [get];
  rewrite (usable_truthy _ Hd);
  rewrite (choose_safe_direction_usable _ _ _ _ _ Hd Hs);
  match goal with
  | |- context [head_of ?state ?player] =>
      let head_x := fresh "head_x" in
      let head_y := fresh "head_y" in
      destruct (head_of state player) as [head_x head_y]; cbn [fst snd]
  end.

(** ** Properties of [choose_move] *)

(** The two scenarios of the spec, run. *)
Example scenario_right :
  choose_move scenario_state 3 1 = ([(2, 1)], Ok "RIGHT").
Proof. reflexivity. Qed.

Example scenario_wrap_then_down :
  choose_move wrap_state 3 1 = ([(0, 1); (2, 2)], Ok "DOWN").
Proof. reflexivity. Qed.


(** *** The dictionary as it is received *)

(** The head read from a dictionary: the first two coordinates of the
    last element of the trail, IndexError when it has fewer. *)
Lemma json_head_run (state : BrainJson.State) (player_number : Z) :
  BrainJson._get_head_position state player_number
  = match get (if player_number =? 1 then BrainJson.agent1_trail state
               else BrainJson.agent2_trail state) [] with
    | [] => ret (0, 0)
    | h :: t =>
        match last (h :: t) [] with
        | x :: y :: _ => ret (x, y)
        | _ => ([], Raise IndexError)
        end
    end.
Proof.
  unfold BrainJson._get_head_position.
  destruct (player_number =? 1).
  - destruct (get (BrainJson.agent1_trail state) []) as [| h t];
      [reflexivity |].
    cbn [truthy negb].
    rewrite (getitem_last (h :: t) []) by discriminate.
    rewrite bind_lift_ok.
    destruct (last (h :: t) []) as [| x [| y r]]; reflexivity.
  - destruct (get (BrainJson.agent2_trail state) []) as [| h t];
      [reflexivity |].
    cbn [truthy negb].
    rewrite (getitem_last (h :: t) []) by discriminate.
    rewrite bind_lift_ok.
    destruct (last (h :: t) []) as [| x [| y r]]; reflexivity.
Qed.

Lemma json_head_readable (state : BrainJson.State) (player_number : Z) :
  (head_readable state player_number = true
   /\ exists head, BrainJson._get_head_position state player_number
                   = ret head)
  \/ (head_readable state player_number = false
      /\ BrainJson._get_head_position state player_number
         = ([], Raise IndexError)).
Proof.
  rewrite json_head_run. unfold head_readable.
  destruct (get (if player_number =? 1 then BrainJson.agent1_trail state
                 else BrainJson.agent2_trail state) []) as [| h t].
  - left. split; [reflexivity | now exists (0, 0)].
  - destruct (last (h :: t) []) as [| x [| y r]].
    + right. now split.
    + right. now split.
    + left. split; [reflexivity | now exists (x, y)].
Qed.

Lemma json_turn_readable (state : BrainJson.State) :
  (turn_readable state = true
   /\ exists t, get (BrainJson.turn_count state) (BrainJson.Int 0)
                = BrainJson.Int t)
  \/ (turn_readable state = false
      /\ get (BrainJson.turn_count state) (BrainJson.Int 0)
         = BrainJson.None_).
Proof.
  unfold turn_readable.
  destruct (BrainJson.turn_count state) as [[t |] |]; cbn [get].
  - left. split; [reflexivity | now exists t].
  - right. now split.
  - left. split; [reflexivity | now exists 0].
Qed.

(** [choose_move] on a dictionary, past its first guard, with a head and
    a turn that can be read. *)
Lemma json_choose_move_run (state : BrainJson.State)
    (boosts_remaining player_number : Z) (head : Z * Z) (t : Z) :
  truthy (get (BrainJson.board state) []) = true ->
  BrainJson._get_head_position state player_number = ret head ->
  get (BrainJson.turn_count state) (BrainJson.Int 0) = BrainJson.Int t ->
  BrainJson.choose_move state boosts_remaining player_number
  = _choose_safe_direction (get (BrainJson.board state) [])
      (fst head) (snd head) (preferred_order_of (t mod 4)).
Proof.
  intros Hb Hh Ht. unfold BrainJson.choose_move.
  rewrite Hb, Hh, Ht. cbn [negb]. rewrite bind_ret_l.
  destruct head as [head_x head_y]. cbn [fst snd BrainJson.mod_value].
  change (mod_ t 4) with (Ok (t mod 4)).
  rewrite bind_lift_ok. cbv zeta. apply bind_ret_r.
Qed.

(** The two embeddings of [choose_move] agree on the states of the
    documented types. *)
Lemma choose_move_to_json (state : State)
    (boosts_remaining player_number : Z) :
  BrainJson.choose_move (to_json state) boosts_remaining player_number
  = choose_move state boosts_remaining player_number.
Proof.
  rewrite choose_move_run.
  unfold BrainJson.choose_move.
  change (get (BrainJson.board (to_json state)) [])
    with (get (board state) []).
  destruct (negb (truthy (get (board state) []))); [reflexivity |].
  assert (Hh : BrainJson._get_head_position (to_json state) player_number
               = ret (head_of state player_number)).
  { rewrite json_head_run. unfold head_of, own_trail, to_json.
    cbn [BrainJson.agent1_trail BrainJson.agent2_trail].
    destruct (player_number =? 1).
    - destruct (agent1_trail state) as [trail |]; [| reflexivity].
      cbn [option_map get].
      destruct trail as [| h t]; [reflexivity |].
      cbn [map].
      change ((let '(x, y) := h in [x; y])
              :: map (fun '(x, y) => [x; y]) t)
        with (map (fun '(x, y) => [x; y]) (h :: t)).
      destruct (exists_last (l := h :: t)) as (l & [x y] & ->);
        [discriminate |].
      rewrite map_app. cbn [map]. now rewrite !last_last.
    - destruct (agent2_trail state) as [trail |]; [| reflexivity].
      cbn [option_map get].
      destruct trail as [| h t]; [reflexivity |].
      cbn [map].
      change ((let '(x, y) := h in [x; y])
              :: map (fun '(x, y) => [x; y]) t)
        with (map (fun '(x, y) => [x; y]) (h :: t)).
      destruct (exists_last (l := h :: t)) as (l & [x y] & ->);
        [discriminate |].
      rewrite map_app. cbn [map]. now rewrite !last_last. }
  rewrite Hh, bind_ret_l.
  destruct (head_of state player_number) as [head_x head_y].
  cbn [fst snd].
  assert (Ht : get (BrainJson.turn_count (to_json state)) (BrainJson.Int 0)
               = BrainJson.Int (get (turn_count state) 0)).
  { unfold to_json. cbn [BrainJson.turn_count].
    now destruct (turn_count state). }
  rewrite Ht. cbn [BrainJson.mod_value].
  change (mod_ (get (turn_count state) 0) 4)
    with (Ok (get (turn_count state) 0 mod 4)).
  rewrite bind_lift_ok. cbv zeta. apply bind_ret_r.
Qed.

(** On a board with no row shorter than the first
    [_choose_safe_direction] returns a direction name. *)
Lemma choose_safe_direction_returns_name (grid : list (list Z))
    (head_x head_y : Z) (order : list string) :
  no_short_row grid = true ->
  Forall (fun name => In name direction_names) order ->
  exists name,
    In name direction_names
    /\ outcome (_choose_safe_direction grid head_x head_y order) = Ok name.
Proof.
  intros Hrows Hnames.
  destruct (board_size_cases grid)
    as [(Hd & _ & _) | (Hd & row0 & tl & Hb & Hne & Hs & Hw & Hh)].
  - exists "RIGHT". split; [unfold direction_names; cbn [In]; auto 6 |].
    now rewrite choose_safe_direction_degenerate.
  - rewrite (choose_safe_direction_usable grid _ _ _ _ Hd Hs).
    apply (loop_outcome grid _ _ _ _ Hd Hs); [exact Hnames |].
    intros c Hx Hy.
    exact (marker_defined grid _ _ c Hrows Hd Hs Hx Hy).
Qed.

(** C1, as stated, fails on dictionaries that are malformed in one of
    three ways.  A row shorter than the first: with the board
    [[1,1],[1]], player 1 at (1,0) and turn 0, the cell (0,0) to the
    right is taken, the cell (1,1) below is looked up next and
    [board[1][1]] raises IndexError.  A trail element with fewer than two
    coordinates: with agent1_trail [[1]] on a 3 x 3 board, [head[1]]
    raises IndexError.  A turn_count that is None: [turn % 4] raises
    TypeError.  No direction is returned. *)
Lemma choose_move_raises_on_malformed_input :
  BrainJson.choose_move ragged_json 0 1
  = ([(0, 0); (1, 1)], Raise IndexError)
  /\ BrainJson.choose_move short_head_json 0 1 = ([], Raise IndexError)
  /\ BrainJson.choose_move null_turn_json 0 1 = ([], Raise TypeError)
  /\ ~ (exists name,
          In name direction_names
          /\ outcome (BrainJson.choose_move ragged_json 0 1) = Ok name).
Proof.
  repeat (split; [reflexivity |]).
  intros (name & _ & H). discriminate H.
Qed.

(** C1, amended: for every state dictionary (the board a list of lists
    of ints, the trails lists of lists of ints, turn_count an int or
    None, every key possibly absent) whose board is absent or empty, or
    else has no row shorter than the first row, with the trail of the
    requesting player absent, empty or ending in an element of at least
    two coordinates, and turn_count absent or an int, and for every
    boosts_remaining and every player_number, [choose_move] raises
    nothing and returns one of the four strings UP, DOWN, LEFT, RIGHT, so
    never a string with a :BOOST suffix; the board may be empty or have
    an empty first row, the trails may be empty or absent, and
    turn_count may be negative. *)
Theorem choose_move_total_on_well_formed
    (state : BrainJson.State) (boosts_remaining player_number : Z) :
  truthy (get (BrainJson.board state) []) = false
  \/ (no_short_row (get (BrainJson.board state) []) = true
      /\ head_readable state player_number = true
      /\ turn_readable state = true) ->
  exists name,
    In name direction_names
    /\ outcome (BrainJson.choose_move state boosts_remaining player_number)
       = Ok name.
Proof.
  intros [Hempty | (Hrows & Hhead & Hturn)].
  - exists "RIGHT". split; [unfold direction_names; cbn [In]; auto 6 |].
    unfold BrainJson.choose_move. now rewrite Hempty.
  - destruct (truthy (get (BrainJson.board state) [])) eqn:Hb.
    + destruct (json_head_readable state player_number)
        as [(_ & head & Hh) | (Hno & _)]; [| congruence].
      destruct (json_turn_readable state)
        as [(_ & t & Ht) | (Hno & _)]; [| congruence].
      rewrite (json_choose_move_run state _ _ head t Hb Hh Ht).
      apply choose_safe_direction_returns_name;
        [exact Hrows | apply preferred_order_of_names].
    + exists "RIGHT". split; [unfold direction_names; cbn [In]; auto 6 |].
      unfold BrainJson.choose_move. now rewrite Hb.
Qed.

Lemma choose_move_total_on_well_formed_witness :
  (exists name,
     In name direction_names
     /\ outcome (BrainJson.choose_move (to_json boxed_state) 3 1) = Ok name)
  /\ (exists name,
        In name direction_names
        /\ outcome (BrainJson.choose_move (to_json hollow_state) 3 2)
           = Ok name)
  /\ (exists name,
        In name direction_names
        /\ outcome (BrainJson.choose_move empty_board_json 3 1) = Ok name).
Proof.
  split; [| split].
  - apply (choose_move_total_on_well_formed (to_json boxed_state) 3 1).
    right. repeat split.
  - apply (choose_move_total_on_well_formed (to_json hollow_state) 3 2).
    right. repeat split.
  - apply (choose_move_total_on_well_formed empty_board_json 3 1).
    left. reflexivity.
Defined.

(** C2: on a usable board where exactly one of the four directions leads
    from the head of the requesting player to a cell holding 0, and the
    cells of the other three hold markers other than 0, [choose_move]
    returns that direction, whatever turn_count is. *)
Theorem choose_move_only_safe_direction
    (state : State) (boosts_remaining player_number : Z)
    (grid : list (list Z)) (width height : Z) (name : string) :
  board state = Some grid ->
  degenerate grid = false ->
  _get_board_size grid = (width, height) ->
  In name direction_names ->
  marker grid (neighbour width height (head_of state player_number) name)
  = Ok 0 ->
  (forall other, In other direction_names -> other <> name ->
     blocked grid width height (head_of state player_number) other) ->
  outcome (choose_move state boosts_remaining player_number) = Ok name.
Proof.
  intros Hb Hd Hs Hname Hsafe Hothers.
  enter_loop Hb Hd Hs.
  apply loop_only_safe; try assumption.
  - apply preferred_order_of_names.
  - now apply preferred_order_complete.
  - intros other Hin. apply Hothers.
    exact (proj1 (Forall_forall _ _) (preferred_order_of_names _) other Hin).
Qed.

Lemma choose_move_only_safe_direction_witness :
  outcome (choose_move corridor_state 3 1) = Ok "RIGHT".
Proof.
  apply (choose_move_only_safe_direction corridor_state 3 1
           [[0; 1; 0]; [1; 1; 0]; [0; 1; 0]] 3 3 "RIGHT");
    try reflexivity.
  - unfold direction_names. cbn [In]. auto 6.
  - unfold direction_names. cbn [In].
    intros other [<- | [<- | [<- | [<- | []]]]] Hneq;
      try (now contradiction Hneq);
      exists 1; (split; [reflexivity | discriminate]).
Defined.

(** C4: on a usable board where the cells in all four directions from
    the head of the requesting player hold markers other than 0,
    [choose_move] returns RIGHT, whatever turn_count is, after having
    read the four cells in the order of the turn. *)
Theorem choose_move_fallback
    (state : State) (boosts_remaining player_number : Z)
    (grid : list (list Z)) (width height : Z) :
  board state = Some grid ->
  degenerate grid = false ->
  _get_board_size grid = (width, height) ->
  (forall name, In name direction_names ->
     blocked grid width height (head_of state player_number) name) ->
  outcome (choose_move state boosts_remaining player_number) = Ok "RIGHT"
  /\ blocked grid width height (head_of state player_number) "RIGHT"
  /\ List.length (reads (choose_move state boosts_remaining player_number))
     = 4%nat.
Proof.
  intros Hb Hd Hs Hall.
  enter_loop Hb Hd Hs.
  rewrite (loop_none_safe grid _ _ _ _ Hd Hs).
  - cbn [outcome reads fst snd].
    rewrite length_map, preferred_order_length.
    repeat split. apply Hall. unfold direction_names. cbn [In]. auto 6.
  - apply Forall_forall. intros name Hin.
    assert (Hn : In name direction_names)
      by exact (proj1 (Forall_forall _ _) (preferred_order_of_names _)
                  name Hin).
    split; [exact Hn | exact (Hall name Hn)].
Qed.

Lemma choose_move_fallback_witness :
  outcome (choose_move boxed_state 3 1) = Ok "RIGHT".
Proof.
  apply (choose_move_fallback boxed_state 3 1
           [[0; 1; 0]; [1; 1; 1]; [0; 1; 0]] 3 3); try reflexivity.
  unfold direction_names. cbn [In].
  intros name [<- | [<- | [<- | [<- | []]]]];
    exists 1; (split; [reflexivity | discriminate]).
Defined.

Lemma choose_move_reads_shape
    (state : State) (boosts_remaining player_number : Z)
    (grid : list (list Z)) (width height : Z) :
  board state = Some grid ->
  degenerate grid = false ->
  _get_board_size grid = (width, height) ->
  exists k : nat,
    (1 <= k <= 4)%nat
    /\ reads (choose_move state boosts_remaining player_number)
       = map (neighbour width height (head_of state player_number))
           (firstn k (preferred_order_of
                        (get (turn_count state) 0 mod 4))).
Proof.
  intros Hb Hd Hs.
  enter_loop Hb Hd Hs.
  destruct (loop_reads grid _ _ head_x head_y Hd Hs _
              (preferred_order_of_names
                 (get (turn_count state) 0 mod 4)))
    as (k & Hk & Hpos & Hreads).
  rewrite preferred_order_length in Hk.
  exists k. split; [| exact Hreads].
  split; [| exact Hk].
  apply Hpos. intros E.
  pose proof (preferred_order_length (get (turn_count state) 0 mod 4)) as L.
  rewrite E in L. discriminate L.
Qed.

Lemma neighbour_origin (width height : Z) :
  0 < width -> 0 < height ->
  neighbour width height (0, 0) "UP" = (0, height - 1)
  /\ neighbour width height (0, 0) "LEFT" = (width - 1, 0).
Proof.
  intros Hw Hh. unfold neighbour.
  change (unit_vector "UP") with (0, -1).
  change (unit_vector "LEFT") with (-1, 0).
  cbn [fst snd]. rewrite !Z.add_0_l, !Z.mod_0_l by lia.
  split; f_equal; symmetry.
  - apply (Z.mod_unique_pos (-1) height (-1) (height - 1)); lia.
  - apply (Z.mod_unique_pos (-1) width (-1) (width - 1)); lia.
Qed.

(** C3: on a board of width W and height H, both positive, the cells
    [choose_move] reads are, in order, the candidates of the first k
    directions of the turn's order (1 <= k <= 4), the candidate of a
    direction being the head plus the unit vector of the direction with x
    reduced modulo W and y modulo H; every cell read lies in
    [0,W) x [0,H); from the head (0,0) the candidate of UP is (0,H-1) and
    the candidate of LEFT is (W-1,0), and these are the first cells read
    on the turns whose order starts with UP and with LEFT. *)
Theorem choose_move_reads_wrapped
    (state : State) (boosts_remaining player_number : Z)
    (grid : list (list Z)) (W H : Z) :
  board state = Some grid ->
  degenerate grid = false ->
  _get_board_size grid = (W, H) ->
  let head := head_of state player_number in
  let turn := get (turn_count state) 0 in
  let cells := reads (choose_move state boosts_remaining player_number) in
  0 < W /\ 0 < H
  /\ (exists k : nat,
        (1 <= k <= 4)%nat
        /\ cells
           = map (fun name =>
                    ((fst head + fst (unit_vector name)) mod W,
                     (snd head + snd (unit_vector name)) mod H))
               (firstn k (preferred_order_of (turn mod 4))))
  /\ Forall (fun c => 0 <= fst c < W /\ 0 <= snd c < H) cells
  /\ (head = (0, 0) ->
      neighbour W H head "UP" = (0, H - 1)
      /\ neighbour W H head "LEFT" = (W - 1, 0)
      /\ (turn mod 4 = 3 -> hd_error cells = Some (0, H - 1))
      /\ (turn mod 4 = 2 -> hd_error cells = Some (W - 1, 0))).
Proof.
  intros Hb Hd Hs head turn cells.
  destruct (size_positive grid W H Hd Hs) as [HW HH].
  destruct (choose_move_reads_shape state boosts_remaining player_number
              grid W H Hb Hd Hs) as (k & Hk & Hreads).
  fold head turn cells in Hreads.
  split; [exact HW |]. split; [exact HH |].
  split; [exists k; split; [exact Hk | exact Hreads] |].
  split.
  - rewrite Hreads. apply Forall_forall. intros c Hc.
    apply in_map_iff in Hc. destruct Hc as (name & <- & _).
    destruct head as [hx hy].
    exact (neighbour_in_range grid W H hx hy Hd Hs name).
  - intros Hhead. rewrite Hhead in *.
    destruct (neighbour_origin W H HW HH) as [Hup Hleft].
    split; [exact Hup |]. split; [exact Hleft |].
    rewrite Hreads.
    destruct k as [| k]; [lia |].
    split; intros ->.
    + change (preferred_order_of 3) with ["UP"; "RIGHT"; "LEFT"; "DOWN"].
      cbn [firstn map hd_error]. now f_equal.
    + change (preferred_order_of 2) with ["LEFT"; "UP"; "DOWN"; "RIGHT"].
      cbn [firstn map hd_error]. now f_equal.
Qed.

Lemma choose_move_reads_wrapped_witness :
  hd_error (reads (choose_move origin_state 0 1)) = Some (0, 2 - 1)
  /\ Forall (fun c => 0 <= fst c < 3 /\ 0 <= snd c < 2)
       (reads (choose_move origin_state 0 1)).
Proof.
  pose proof (choose_move_reads_wrapped origin_state 0 1
                [[0; 0; 0]; [1; 1; 1]] 3 2 eq_refl eq_refl eq_refl) as H.
  cbv zeta in H.
  destruct H as (_ & _ & _ & Hrange & Horigin).
  split; [| exact Hrange].
  destruct (Horigin eq_refl) as (_ & _ & Hup & _).
  exact (Hup eq_refl).
Defined.

(** C5: the result of [choose_move], and the cells it reads, depend on
    turn_count only through turn_count mod 4: the turns t and t mod 4
    give the same run, and so do t and t + 4; on turn 0 the order of
    preference is RIGHT, DOWN, UP, LEFT, and on a usable board the cells
    read are the candidates of the first k directions of that order, in
    that order. *)
Theorem choose_move_turn_period
    (state : State) (boosts_remaining player_number : Z) :
  (forall t, choose_move (set_turn_count state t) boosts_remaining
               player_number
             = choose_move (set_turn_count state (t mod 4)) boosts_remaining
                 player_number)
  /\ (forall t, choose_move (set_turn_count state (t + 4)) boosts_remaining
                  player_number
                = choose_move (set_turn_count state t) boosts_remaining
                    player_number)
  /\ preferred_order_of (0 mod 4) = ["RIGHT"; "DOWN"; "UP"; "LEFT"]
  /\ (forall grid width height,
        board state = Some grid ->
        degenerate grid = false ->
        _get_board_size grid = (width, height) ->
        exists k : nat,
          (1 <= k <= 4)%nat
          /\ reads (choose_move (set_turn_count state 0) boosts_remaining
                      player_number)
             = map (neighbour width height (head_of state player_number))
                 (firstn k ["RIGHT"; "DOWN"; "UP"; "LEFT"])).
Proof.
  assert (Hmod : forall t t', t mod 4 = t' mod 4 ->
            choose_move (set_turn_count state t) boosts_remaining
              player_number
            = choose_move (set_turn_count state t') boosts_remaining
                player_number).
  { intros t t' E. rewrite !choose_move_run.
    cbn [set_turn_count board turn_count get].
    change (head_of (set_turn_count state t) player_number)
      with (head_of state player_number).
    change (head_of (set_turn_count state t') player_number)
      with (head_of state player_number).
    now rewrite E. }
  split; [| split; [| split]].
  - intros t. apply Hmod. now rewrite Z.mod_mod.
  - intros t. apply Hmod.
    replace (t + 4) with (t + 1 * 4) by lia. apply Z_mod_plus_full.
  - reflexivity.
  - intros grid width height Hb Hd Hs.
    exact (choose_move_reads_shape (set_turn_count state 0) boosts_remaining
             player_number grid width height Hb Hd Hs).
Qed.

Lemma choose_move_turn_period_witness :
  choose_move (set_turn_count scenario_state 4) 3 1
  = choose_move (set_turn_count scenario_state 0) 3 1
  /\ exists k : nat,
       (1 <= k <= 4)%nat
       /\ reads (choose_move (set_turn_count scenario_state 0) 3 1)
          = map (neighbour 3 3 (head_of scenario_state 1))
              (firstn k ["RIGHT"; "DOWN"; "UP"; "LEFT"]).
Proof.
  destruct (choose_move_turn_period scenario_state 3 1)
    as (_ & Hperiod & _ & Horder).
  split; [exact (Hperiod 0) |].
  exact (Horder [[0; 0; 0]; [0; 0; 0]; [0; 0; 0]] 3 3
           eq_refl eq_refl eq_refl).
Defined.

(** C6: when the board is an empty grid, or a grid whose first row is
    empty, [choose_move] returns RIGHT, raises nothing and reads no
    cell, whatever the trails, turn_count, boosts_remaining and
    player_number are. *)
Theorem choose_move_degenerate_board
    (state : State) (boosts_remaining player_number : Z) :
  board state = Some [] \/ (exists rest, board state = Some ([] :: rest)) ->
  choose_move state boosts_remaining player_number = ([], Ok "RIGHT").
Proof.
  intros Hb. rewrite choose_move_run.
  destruct (negb (truthy (get (board state) []))); [reflexivity |].
  apply choose_safe_direction_degenerate.
  destruct Hb as [-> | [rest ->]]; reflexivity.
Qed.

Lemma choose_move_degenerate_board_witness :
  choose_move hollow_state 2 2 = ([], Ok "RIGHT").
Proof.
  apply (choose_move_degenerate_board hollow_state 2 2).
  right. exists [[1; 0]]. reflexivity.
Defined.

(** C7: the head [_get_head_position] returns, and [choose_move] starts
    from, is the last element of the trail of the requesting player, and
    (0,0) when that trail is empty or its key is absent. *)
Theorem head_is_last_of_own_trail
    (state : State) (boosts_remaining player_number : Z) :
  let trail := get (if player_number =? 1 then agent1_trail state
                    else agent2_trail state) [] in
  let head := last trail (0, 0) in
  _get_head_position state player_number = ([], Ok head)
  /\ (trail = [] -> head = (0, 0))
  /\ (forall earlier h, trail = earlier ++ [h] -> head = h)
  /\ choose_move state boosts_remaining player_number
     = if negb (truthy (get (board state) [])) then ret "RIGHT"
       else _choose_safe_direction (get (board state) [])
              (fst head) (snd head)
              (preferred_order_of (get (turn_count state) 0 mod 4)).
Proof.
  intros trail head.
  split; [exact (get_head_position_run state player_number) |].
  split; [intros E; subst head; now rewrite E |].
  split; [intros earlier h E; subst head; rewrite E; apply last_last |].
  exact (choose_move_run state boosts_remaining player_number).
Qed.

Lemma head_is_last_of_own_trail_witness :
  _get_head_position corridor_state 1 = ([], Ok (1, 1))
  /\ _get_head_position origin_state 1 = ([], Ok (0, 0)).
Proof.
  split.
  - destruct (head_is_last_of_own_trail corridor_state 0 1)
      as (Hhead & _ & Hlast & _).
    rewrite Hhead. now rewrite (Hlast [(0, 1)] (1, 1) eq_refl).
  - destruct (head_is_last_of_own_trail origin_state 0 1)
      as (Hhead & Hempty & _ & _).
    rewrite Hhead. now rewrite (Hempty eq_refl).
Defined.

(** C8: two calls that agree on the board, on the trail of the
    requesting player, on turn_count and on player_number make the same
    run (same cells read, same move), whatever the trail of the
    opponent, the lengths, the alive flags, the boost fields, the
    player_number field and the boosts_remaining arguments are. *)
Theorem choose_move_ignores_unused
    (state state' : State) (boosts_remaining boosts_remaining' : Z)
    (player_number : Z) :
  board state = board state' ->
  (if player_number =? 1 then agent1_trail state else agent2_trail state)
  = (if player_number =? 1 then agent1_trail state'
     else agent2_trail state') ->
  turn_count state = turn_count state' ->
  choose_move state boosts_remaining player_number
  = choose_move state' boosts_remaining' player_number.
Proof.
  intros Hb Ht Hturn. rewrite !choose_move_run.
  unfold head_of, own_trail. now rewrite Hb, Ht, Hturn.
Qed.

Lemma choose_move_ignores_unused_witness :
  choose_move scenario_state 3 1 = choose_move scenario_state' 0 1.
Proof.
  apply (choose_move_ignores_unused scenario_state scenario_state' 3 0 1);
    reflexivity.
Defined.

(** C9: with a player_number other than 1 (0, 3, a negative number)
    the head is read from agent2_trail, and [choose_move] makes the same
    run as with player_number 2. *)
Theorem choose_move_other_player_is_two
    (state : State) (boosts_remaining player_number : Z) :
  player_number <> 1 ->
  _get_head_position state player_number
  = ([], Ok (last (get (agent2_trail state) []) (0, 0)))
  /\ choose_move state boosts_remaining player_number
     = choose_move state boosts_remaining 2.
Proof.
  intros Hp.
  assert (E : (player_number =? 1) = false) by now apply Z.eqb_neq.
  assert (Hh : head_of state player_number = head_of state 2).
  { unfold head_of, own_trail. now rewrite E. }
  split.
  - rewrite get_head_position_run, Hh. reflexivity.
  - now rewrite !choose_move_run, Hh.
Qed.

Lemma choose_move_other_player_is_two_witness :
  choose_move corridor_state 3 (-3) = choose_move corridor_state 3 2.
Proof.
  apply (choose_move_other_player_is_two corridor_state 3 (-3)).
  discriminate.
Defined.

(** ** Properties of [move_str_to_direction_and_boost] *)

Example strip_upper_sample :
  strip "   up:boost  " = "up:boost"
  /\ upper "up:Boost" = "UP:BOOST"
  /\ split1 "UP:X:BOOST" ":" = Ok ["UP"; "X:BOOST"]
  /\ split1 "UP" ":" = Ok ["UP"].
Proof. repeat split. Qed.


Lemma dict_getitem_cases {V : Type} (d : list (string * V)) (key : string) :
  (exists v, dict_getitem d key = Ok v /\ In (key, v) d)
  \/ (dict_getitem d key = Raise KeyError /\ ~ In key (map fst d)).
Proof.
  induction d as [| [k v] d IH]; [right; split; [reflexivity | intros []] |].
  cbn [dict_getitem map fst In].
  destruct (String.eqb k key) eqn:E.
  - apply String.eqb_eq in E. subst k. left. exists v. auto.
  - apply String.eqb_neq in E.
    destruct IH as [(w & Hw & Hin) | (Hr & Hnin)].
    + left. exists w. auto.
    + right. split; [exact Hr |]. intros [H | H]; contradiction.
Qed.

Lemma prefix_boost_colon (s : string) :
  prefix ":BOOST" s = true -> prefix ":" s = true.
Proof.
  destruct s as [| c s]; [discriminate |].
  cbn [prefix]. destruct (ascii_dec ":" c); [| discriminate].
  intros _. now destruct s.
Qed.

(** A string that holds the boost suffix holds a colon, so the split at
    the first colon yields two parts. *)
Lemma contains_boost_partition (s : string) :
  contains ":BOOST" s = true ->
  exists before after, partition_first ":" s = Some (before, after).
Proof.
  induction s as [| c s IH]; [discriminate |].
  intros H. cbn [contains] in H. cbn [partition_first].
  destruct (prefix ":BOOST" (String c s)) eqn:E.
  - rewrite (prefix_boost_colon _ E). eauto.
  - destruct (prefix ":" (String c s)); [eauto |].
    destruct (IH H) as (before & after & ->). eauto.
Qed.

(** The whole function in one equation: the member named by the
    direction part with the boost flag of the suffix test, or the
    fallback when the direction part names no member. *)
Lemma move_str_run (move_str : string) :
  let text := upper (strip move_str) in
  move_str_to_direction_and_boost move_str
  = Ok match Direction_getitem (direction_part text) with
       | Ok direction_enum => (direction_enum, contains ":BOOST" text)
       | Raise _ => (RIGHT, false)
       end.
Proof.
  intros text. unfold move_str_to_direction_and_boost, direction_part.
  fold text.
  destruct (contains ":BOOST" text) eqn:E.
  - destruct (contains_boost_partition text E) as (before & after & Hp).
    unfold split1. rewrite Hp. cbn [and_then unpack2].
    unfold Direction_getitem.
    destruct (dict_getitem_cases Direction_members before)
      as [(d & -> & _) | (-> & _)]; reflexivity.
  - cbn [and_then]. unfold Direction_getitem.
    destruct (dict_getitem_cases Direction_members text)
      as [(d & -> & _) | (-> & _)]; reflexivity.
Qed.

(** The decoder of [VisualTron] is the decoder on any text with the
    builtins on ASCII text for [str.strip] and [str.upper]. *)
Lemma move_str_on_ascii_builtins (move_str : string) :
  VisualTron.move_str_to_direction_and_boost move_str
  = VisualTronText.move_str_to_direction_and_boost strip upper move_str.
Proof. reflexivity. Qed.

Section AnyText.
Variables str_strip str_upper : string -> string.

Let decode :=
  VisualTronText.move_str_to_direction_and_boost str_strip str_upper.

(** The whole function in one equation, whatever [str.strip] and
    [str.upper] do to the text. *)
Lemma text_move_str_run (move_str : string) :
  let text := str_upper (str_strip move_str) in
  decode move_str
  = Ok match Direction_getitem (direction_part text) with
       | Ok direction_enum => (direction_enum, contains ":BOOST" text)
       | Raise _ => (RIGHT, false)
       end.
Proof.
  intros text. subst decode.
  unfold VisualTronText.move_str_to_direction_and_boost, direction_part.
  fold text.
  destruct (contains ":BOOST" text) eqn:E.
  - destruct (contains_boost_partition text E) as (before & after & Hp).
    unfold split1. rewrite Hp. cbn [and_then unpack2].
    unfold Direction_getitem.
    destruct (dict_getitem_cases Direction_members before)
      as [(d & -> & _) | (-> & _)]; reflexivity.
  - cbn [and_then]. unfold Direction_getitem.
    destruct (dict_getitem_cases Direction_members text)
      as [(d & -> & _) | (-> & _)]; reflexivity.
Qed.

(** C10: for every input string, and whatever the tables of whitespace
    and of uppercase forms of [str.strip] and [str.upper] are,
    [move_str_to_direction_and_boost] works on the input stripped and
    uppercased; it never raises; when that text is D:BOOST for a member
    name D of Direction it returns (Direction.D, True); when it is a bare
    member name D it returns (Direction.D, False); and when its
    direction part is no member name it returns
    (Direction.RIGHT, False). *)
Theorem move_str_decoding_any_text (move_str : string) :
  let text := str_upper (str_strip move_str) in
  (exists direction_enum use_boost,
     decode move_str = Ok (direction_enum, use_boost))
  /\ (forall name member,
        In (name, member) Direction_members ->
        text = (name ++ ":BOOST")%string ->
        decode move_str = Ok (member, true))
  /\ (forall name member,
        In (name, member) Direction_members ->
        text = name ->
        decode move_str = Ok (member, false))
  /\ (~ In (direction_part text) (map fst Direction_members) ->
      decode move_str = Ok (RIGHT, false)).
Proof.
  intros text. pose proof (text_move_str_run move_str) as Hrun.
  cbv zeta in Hrun. fold text in Hrun.
  split; [| split; [| split]].
  - rewrite Hrun.
    destruct (Direction_getitem (direction_part text)); eauto.
  - intros name member Hin Htext. rewrite Hrun, Htext.
    unfold Direction_members in Hin. cbn [In] in Hin.
    destruct Hin as [H | [H | [H | [H | []]]]];
      injection H as <- <-; reflexivity.
  - intros name member Hin Htext. rewrite Hrun, Htext.
    unfold Direction_members in Hin. cbn [In] in Hin.
    destruct Hin as [H | [H | [H | [H | []]]]];
      injection H as <- <-; reflexivity.
  - intros Hnot. rewrite Hrun. unfold Direction_getitem.
    destruct (dict_getitem_cases Direction_members (direction_part text))
      as [(d & _ & Hin) | (-> & _)]; [| reflexivity].
    exfalso. apply Hnot. apply in_map_iff. now exists (direction_part text, d).
Qed.

End AnyText.

Lemma move_str_decoding_any_text_witness :
  VisualTronText.move_str_to_direction_and_boost strip upper "  up:boost "
  = Ok (UP, true)
  /\ VisualTronText.move_str_to_direction_and_boost strip upper "Left"
     = Ok (LEFT, false)
  /\ VisualTronText.move_str_to_direction_and_boost strip upper
       "north:boost"
     = Ok (RIGHT, false).
Proof.
  split; [| split].
  - destruct (move_str_decoding_any_text strip upper "  up:boost ")
      as (_ & Hboost & _ & _).
    apply (Hboost "UP" UP); [cbn; auto | reflexivity].
  - destruct (move_str_decoding_any_text strip upper "Left")
      as (_ & _ & Hbare & _).
    apply (Hbare "LEFT" LEFT); [cbn; auto | reflexivity].
  - destruct (move_str_decoding_any_text strip upper "north:boost")
      as (_ & _ & _ & Hfall).
    apply Hfall. cbn.
    intros [H | [H | [H | [H | []]]]]; discriminate H.
Defined.

(** * Further properties of the code *)

(** ** brain.py: the helpers on their own *)

Lemma bind_outcome_ok {A B : Type} (m : M A) (k : A -> M B) (b : B) :
  outcome (bind m k) = Ok b ->
  exists a, outcome m = Ok a /\ outcome (k a) = Ok b.
Proof.
  destruct m as [t [a | e]]; cbn [bind outcome snd]; [| discriminate].
  destruct (k a) as [t' r] eqn:E. intros Hr.
  exists a. split; [reflexivity |]. rewrite E. exact Hr.
Qed.

Lemma DIRECTION_VECTORS_unknown (direction_name : string) :
  ~ In direction_name direction_names ->
  dict_getitem DIRECTION_VECTORS direction_name = Raise KeyError.
Proof.
  intros Hnot.
  destruct (dict_getitem_cases DIRECTION_VECTORS direction_name)
    as [(v & _ & Hin) | (Hr & _)]; [| exact Hr].
  exfalso. apply Hnot.
  apply (in_map fst) in Hin. exact Hin.
Qed.

(** X1: [_is_cell_safe] answers True for every cell of the empty board,
    without a lookup, and raises ZeroDivisionError on a board whose first
    row is empty, whatever the other rows hold. *)
Theorem is_cell_safe_without_columns (x y : Z) :
  _is_cell_safe [] x y = ([], Ok true)
  /\ forall rest, _is_cell_safe ([] :: rest) x y
                  = ([], Raise ZeroDivisionError).
Proof.
  split; [reflexivity |].
  intros rest. unfold _is_cell_safe.
  destruct (len ([] :: rest) =? 0) eqn:E.
  - apply Z.eqb_eq in E. rewrite len_cons in E.
    pose proof (len_nonneg rest). lia.
  - reflexivity.
Qed.

(** X2: on a usable board [_is_cell_safe] is periodic: shifting x by a
    multiple of the width and y by a multiple of the height changes
    neither the cell that is looked up nor the answer. *)
Theorem is_cell_safe_periodic (board : list (list Z)) (width height : Z)
    (x y a b : Z) :
  degenerate board = false ->
  _get_board_size board = (width, height) ->
  _is_cell_safe board (x + a * width) (y + b * height)
  = _is_cell_safe board x y.
Proof.
  intros Hd Hs.
  rewrite !(is_cell_safe_run board width height) by assumption.
  now rewrite !Z_mod_plus_full.
Qed.

Lemma is_cell_safe_periodic_witness :
  _is_cell_safe [[0; 1; 0]; [1; 1; 0]] (-1 + 2 * 3) (3 + -1 * 2)
  = _is_cell_safe [[0; 1; 0]; [1; 1; 0]] (-1) 3.
Proof.
  apply (is_cell_safe_periodic [[0; 1; 0]; [1; 1; 0]] 3 2 (-1) 3 2 (-1));
    reflexivity.
Defined.

(** X3: on a usable board with no row shorter than the first,
    [_is_cell_safe] raises nothing for any integers x and y, negative or
    beyond the board: it looks up the one cell (x mod width, y mod
    height), which lies on the board, and answers whether its marker is
    0. *)
Theorem is_cell_safe_total (board : list (list Z)) (width height x y : Z) :
  degenerate board = false ->
  _get_board_size board = (width, height) ->
  no_short_row board = true ->
  0 <= x mod width < width /\ 0 <= y mod height < height
  /\ exists v,
       marker board (x mod width, y mod height) = Ok v
       /\ _is_cell_safe board x y
          = ([(x mod width, y mod height)], Ok (v =? 0)).
Proof.
  intros Hd Hs Hrows.
  destruct (size_positive board width height Hd Hs) as [Hw Hh].
  assert (Hx : 0 <= x mod width < width) by (apply Z.mod_pos_bound; lia).
  assert (Hy : 0 <= y mod height < height) by (apply Z.mod_pos_bound; lia).
  split; [exact Hx |]. split; [exact Hy |].
  destruct (marker_defined board width height (x mod width, y mod height)
              Hrows Hd Hs Hx Hy) as [v Hv].
  exists v. split; [exact Hv |].
  rewrite (is_cell_safe_run board width height) by assumption.
  now rewrite Hv.
Qed.

Lemma is_cell_safe_total_witness :
  _is_cell_safe [[0; 1; 0]; [1; 1; 0]] (-1) 5 = ([(2, 1)], Ok true).
Proof.
  destruct (is_cell_safe_total [[0; 1; 0]; [1; 1; 0]] 3 2 (-1) 5
              eq_refl eq_refl eq_refl) as (_ & _ & v & Hv & Hrun).
  rewrite Hrun. injection Hv as <-. reflexivity.
Defined.

(** ** brain.py: the choice among the directions *)

Lemma loop_returns_listed (board : list (list Z))
    (width height head_x head_y : Z) (order : list string) (name : string) :
  outcome (_choose_safe_direction_loop board width height head_x head_y
             order) = Ok name ->
  name = "RIGHT" \/ In name order.
Proof.
  induction order as [| n rest IH]; cbn [_choose_safe_direction_loop].
  - cbn. intros H. injection H as <-. now left.
  - intros H.
    apply bind_outcome_ok in H. destruct H as ([dx dy] & _ & H).
    apply bind_outcome_ok in H. destruct H as (new_x & _ & H).
    apply bind_outcome_ok in H. destruct H as (new_y & _ & H).
    apply bind_outcome_ok in H. destruct H as ([|] & _ & H).
    + cbn in H. injection H as <-. right. now left.
    + destruct (IH H) as [-> | Hin]; [now left | right; now right].
Qed.

(** X4: whatever the board, the head and the list of names it is given,
    when [_choose_safe_direction] returns, it returns a name of its list
    or RIGHT; with the empty list it returns RIGHT. *)
Theorem choose_safe_direction_returns_listed (board : list (list Z))
    (head_x head_y : Z) (order : list string) :
  (forall name,
     outcome (_choose_safe_direction board head_x head_y order) = Ok name ->
     name = "RIGHT" \/ In name order)
  /\ _choose_safe_direction board head_x head_y [] = ret "RIGHT".
Proof.
  unfold _choose_safe_direction.
  destruct (_get_board_size board) as [width height].
  destruct ((width =? 0) || (height =? 0)).
  - split; [| reflexivity]. cbn. intros name H. injection H as <-. now left.
  - split; [| reflexivity]. intros name. apply loop_returns_listed.
Qed.

Lemma choose_safe_direction_returns_listed_witness :
  "DOWN" = "RIGHT" \/ In "DOWN" ["LEFT"; "DOWN"].
Proof.
  apply (proj1 (choose_safe_direction_returns_listed
                  [[0; 1; 0]; [1; 1; 0]; [0; 0; 0]] 1 1 ["LEFT"; "DOWN"])).
  reflexivity.
Defined.

(** X5: on a usable board a name that is not a key of DIRECTION_VECTORS
    raises KeyError when the loop reaches it, that is when the
    directions listed before it are all blocked; the cells of those
    directions have been looked up by then. *)
Theorem choose_safe_direction_unknown_name (board : list (list Z))
    (width height head_x head_y : Z)
    (before after : list string) (name : string) :
  degenerate board = false ->
  _get_board_size board = (width, height) ->
  Forall (fun n => In n direction_names
                   /\ blocked board width height (head_x, head_y) n)
    before ->
  ~ In name direction_names ->
  _choose_safe_direction board head_x head_y (before ++ name :: after)
  = (map (neighbour width height (head_x, head_y)) before, Raise KeyError).
Proof.
  intros Hd Hs Hbefore Hname.
  rewrite (choose_safe_direction_usable board width height _ _ Hd Hs).
  induction Hbefore as [| n before [Hn (v & Hv & Hnz)] _ IH].
  - cbn [app _choose_safe_direction_loop map].
    now rewrite (DIRECTION_VECTORS_unknown name Hname).
  - cbn [app map]. rewrite loop_step by assumption. cbv zeta.
    rewrite Hv.
    destruct (v =? 0) eqn:E; [apply Z.eqb_eq in E; contradiction |].
    now rewrite IH.
Qed.

Lemma choose_safe_direction_unknown_name_witness :
  _choose_safe_direction [[0; 1; 0]; [1; 1; 0]; [0; 0; 0]] 1 1
    (["UP"; "LEFT"] ++ "NORTH" :: ["RIGHT"])
  = ([(1, 0); (0, 1)], Raise KeyError).
Proof.
  apply (choose_safe_direction_unknown_name
           [[0; 1; 0]; [1; 1; 0]; [0; 0; 0]] 3 3 1 1
           ["UP"; "LEFT"] ["RIGHT"] "NORTH"); try reflexivity.
  - repeat (apply Forall_cons || apply Forall_nil);
      (split; [unfold direction_names; cbn [In]; auto 6 |]);
      exists 1; (split; [reflexivity | discriminate]).
  - unfold direction_names. cbn [In].
    intros [H | [H | [H | [H | []]]]]; discriminate H.
Defined.

(** The loop on a board where every cell in range holds a marker: it
    stops at the first direction whose cell holds 0, or runs through
    directions that are all blocked. *)
Lemma loop_decides (board : list (list Z))
    (width height head_x head_y : Z) (order : list string) :
  degenerate board = false ->
  _get_board_size board = (width, height) ->
  no_short_row board = true ->
  Forall (fun n => In n direction_names) order ->
  let head := (head_x, head_y) in
  let run := _choose_safe_direction_loop board width height head_x head_y
               order in
  (exists before name after,
     order = before ++ name :: after
     /\ Forall (blocked board width height head) before
     /\ marker board (neighbour width height head name) = Ok 0
     /\ run = (map (neighbour width height head) (before ++ [name]),
               Ok name))
  \/ (Forall (blocked board width height head) order
      /\ run = (map (neighbour width height head) order, Ok "RIGHT")).
Proof.
  intros Hd Hs Hrows Hnames head run. subst run.
  induction Hnames as [| n rest Hn Hrest IH].
  - right. split; [constructor | reflexivity].
  - rewrite loop_step by assumption. cbv zeta. fold head.
    destruct (neighbour_in_range board width height head_x head_y Hd Hs n)
      as [Hx Hy].
    fold head in Hx, Hy.
    destruct (marker_defined board width height _ Hrows Hd Hs Hx Hy)
      as [v Hv].
    rewrite Hv. destruct (v =? 0) eqn:E.
    + apply Z.eqb_eq in E. subst v. left.
      exists [], n, rest. cbn [app map]. repeat split; auto.
    + apply Z.eqb_neq in E.
      assert (Hb : blocked board width height head n) by (exists v; auto).
      destruct IH as [(before & name & after & -> & Hbl & Hsafe & ->)
                     | (Hbl & ->)].
      * left. exists (n :: before), name, after. cbn [app map].
        repeat split; auto.
      * right. split; [constructor; assumption | reflexivity].
Qed.

(** X6: on a usable board with no row shorter than the first,
    [choose_move] returns the first direction of the turn's order whose
    cell holds 0, having looked up the blocked cells before it and that
    cell and no other; it returns a direction whose cell is taken only
    when all four are, and that direction is RIGHT. *)
Theorem choose_move_first_safe
    (state : State) (boosts_remaining player_number : Z)
    (grid : list (list Z)) (width height : Z) :
  board state = Some grid ->
  degenerate grid = false ->
  _get_board_size grid = (width, height) ->
  no_short_row grid = true ->
  let head := head_of state player_number in
  let order := preferred_order_of (get (turn_count state) 0 mod 4) in
  let run := choose_move state boosts_remaining player_number in
  (exists before name after,
     order = before ++ name :: after
     /\ Forall (blocked grid width height head) before
     /\ marker grid (neighbour width height head name) = Ok 0
     /\ run = (map (neighbour width height head) (before ++ [name]),
               Ok name))
  \/ ((forall name, In name direction_names ->
         blocked grid width height head name)
      /\ run = (map (neighbour width height head) order, Ok "RIGHT")).
Proof.
  intros Hb Hd Hs Hrows head order run. subst head order run.
  enter_loop Hb Hd Hs.
  destruct (loop_decides grid width height head_x head_y
              (preferred_order_of (get (turn_count state) 0 mod 4))
              Hd Hs Hrows (preferred_order_of_names _))
    as [Hfirst | (Hall & Hrun)]; [left; exact Hfirst | right].
  split; [| exact Hrun].
  intros name Hname.
  exact (proj1 (Forall_forall _ _) Hall name
           (preferred_order_complete _ name Hname)).
Qed.

Lemma choose_move_first_safe_witness :
  let grid := [[0; 0; 0]; [1; 0; 1]; [0; 0; 0]] in
  let run := choose_move wrap_state 3 1 in
  (exists before name after,
     ["RIGHT"; "DOWN"; "UP"; "LEFT"] = before ++ name :: after
     /\ Forall (blocked grid 3 3 (2, 1)) before
     /\ marker grid (neighbour 3 3 (2, 1) name) = Ok 0
     /\ run = (map (neighbour 3 3 (2, 1)) (before ++ [name]), Ok name))
  \/ ((forall name, In name direction_names -> blocked grid 3 3 (2, 1) name)
      /\ run = (map (neighbour 3 3 (2, 1)) ["RIGHT"; "DOWN"; "UP"; "LEFT"],
                Ok "RIGHT")).
Proof.
  exact (choose_move_first_safe wrap_state 3 1
           [[0; 0; 0]; [1; 0; 1]; [0; 0; 0]] 3 3
           eq_refl eq_refl eq_refl eq_refl).
Defined.

Lemma loop_head_shift (board : list (list Z))
    (width height head_x head_y a b : Z) (order : list string) :
  _choose_safe_direction_loop board width height
    (head_x + a * width) (head_y + b * height) order
  = _choose_safe_direction_loop board width height head_x head_y order.
Proof.
  induction order as [| n rest IH]; [reflexivity |].
  cbn [_choose_safe_direction_loop].
  destruct (dict_getitem DIRECTION_VECTORS n) as [[dx dy] | e];
    [rewrite !bind_lift_ok | reflexivity].
  unfold mod_.
  destruct (width =? 0); [reflexivity | rewrite !bind_lift_ok].
  destruct (height =? 0); [reflexivity | rewrite !bind_lift_ok].
  replace (head_x + a * width + dx) with (head_x + dx + a * width) by lia.
  replace (head_y + b * height + dy) with (head_y + dy + b * height) by lia.
  rewrite !Z_mod_plus_full.
  destruct (_is_cell_safe board ((head_x + dx) mod width)
              ((head_y + dy) mod height)) as [t [[|] | e]];
    cbn [bind]; try reflexivity.
  now rewrite IH.
Qed.

(** X7: a head that lies off the board is taken at its wrapped place:
    two states with the same board and turn_count whose heads differ by
    a multiple of the width in x and a multiple of the height in y make
    the same run of [choose_move]. *)
Theorem choose_move_head_wraps
    (state state' : State) (boosts_remaining boosts_remaining' : Z)
    (player_number : Z) (width height a b : Z) :
  board state' = board state ->
  turn_count state' = turn_count state ->
  _get_board_size (get (board state) []) = (width, height) ->
  head_of state' player_number
  = (fst (head_of state player_number) + a * width,
     snd (head_of state player_number) + b * height) ->
  choose_move state' boosts_remaining' player_number
  = choose_move state boosts_remaining player_number.
Proof.
  intros Hb Ht Hs Hh. rewrite !choose_move_run, Hb, Ht, Hh.
  cbn [fst snd].
  destruct (negb (truthy (get (board state) []))); [reflexivity |].
  unfold _choose_safe_direction. rewrite Hs.
  destruct ((width =? 0) || (height =? 0)); [reflexivity |].
  apply loop_head_shift.
Qed.

Lemma choose_move_head_wraps_witness :
  choose_move (snapshot [[0; 1; 0]; [1; 1; 0]; [0; 1; 0]] [(4, -2)] [] 2)
    0 1
  = choose_move (snapshot [[0; 1; 0]; [1; 1; 0]; [0; 1; 0]] [(1, 1)] [] 2)
      3 1.
Proof.
  apply (choose_move_head_wraps
           (snapshot [[0; 1; 0]; [1; 1; 0]; [0; 1; 0]] [(1, 1)] [] 2)
           (snapshot [[0; 1; 0]; [1; 1; 0]; [0; 1; 0]] [(4, -2)] [] 2)
           3 0 1 3 3 1 (-1)); reflexivity.
Defined.

Lemma getitem_raises {A : Type} (l : list A) (i : Z) (e : exn) :
  getitem l i = Raise e -> e = IndexError.
Proof.
  unfold getitem. destruct (_ <? 0); [intros H; now injection H |].
  destruct (nth_error l _); [discriminate | intros H; now injection H].
Qed.

Lemma marker_raises (board : list (list Z)) (c : cell) (e : exn) :
  marker board c = Raise e -> e = IndexError.
Proof.
  unfold marker, and_then.
  destruct (getitem board (snd c)) as [row | e'] eqn:E.
  - apply getitem_raises.
  - intros H. injection H as <-. exact (getitem_raises _ _ _ E).
Qed.

Lemma loop_raises (board : list (list Z))
    (width height head_x head_y : Z) (order : list string) (e : exn) :
  degenerate board = false ->
  _get_board_size board = (width, height) ->
  Forall (fun n => In n direction_names) order ->
  outcome (_choose_safe_direction_loop board width height head_x head_y
             order) = Raise e ->
  e = IndexError.
Proof.
  intros Hd Hs Hnames.
  induction Hnames as [| n rest Hn Hrest IH]; [discriminate |].
  rewrite loop_step by assumption. cbv zeta.
  destruct (marker board (neighbour width height (head_x, head_y) n))
    as [v | e'] eqn:E.
  - destruct (v =? 0); [discriminate |].
    destruct (_choose_safe_direction_loop board width height
                head_x head_y rest) as [t r].
    exact IH.
  - cbn [outcome snd]. intros H. injection H as <-.
    exact (marker_raises _ _ _ E).
Qed.

Lemma choose_move_returns_name
    (state : State) (boosts_remaining player_number : Z) :
  no_short_row (get (board state) []) = true ->
  exists name,
    In name direction_names
    /\ outcome (choose_move state boosts_remaining player_number) = Ok name.
Proof.
  intros Hrows. rewrite choose_move_run.
  set (grid := get (board state) []) in *.
  destruct (board_size_cases grid)
    as [(Hd & _ & _) | (Hd & row0 & tl & Hb & Hne & Hs & Hw & Hh)].
  - exists "RIGHT". split; [unfold direction_names; cbn [In]; auto 6 |].
    destruct (negb (truthy grid)); [reflexivity |].
    now rewrite choose_safe_direction_degenerate.
  - rewrite (usable_truthy grid Hd).
    rewrite (choose_safe_direction_usable grid _ _ _ _ Hd Hs).
    apply (loop_outcome grid _ _ _ _ Hd Hs);
      [apply preferred_order_of_names |].
    intros c Hx Hy.
    exact (marker_defined grid _ _ c Hrows Hd Hs Hx Hy).
Qed.

Lemma choose_safe_direction_raises (grid : list (list Z))
    (head_x head_y : Z) (order : list string) (e : exn) :
  Forall (fun name => In name direction_names) order ->
  outcome (_choose_safe_direction grid head_x head_y order) = Raise e ->
  e = IndexError /\ no_short_row grid = false.
Proof.
  intros Hnames Hraise. split.
  - destruct (board_size_cases grid)
      as [(Hd & _ & _) | (Hd & row0 & tl & Hb & Hne & Hs & Hw & Hh)].
    + rewrite choose_safe_direction_degenerate in Hraise by exact Hd.
      discriminate Hraise.
    + rewrite (choose_safe_direction_usable grid _ _ _ _ Hd Hs) in Hraise.
      exact (loop_raises grid _ _ _ _ _ e Hd Hs Hnames Hraise).
  - destruct (no_short_row grid) eqn:Hrows; [| reflexivity].
    destruct (choose_safe_direction_returns_name grid head_x head_y order
                Hrows Hnames) as (name & _ & Hok).
    rewrite Hok in Hraise. discriminate Hraise.
Qed.

(** X8: on a state dictionary (the board a list of lists of ints, the
    trails lists of lists of ints, turn_count an int or None)
    [choose_move] raises in three cases only, all with a non-empty board:
    IndexError when the last element of the trail of the requesting
    player has fewer than two coordinates; else TypeError when
    turn_count is None; else IndexError when the board has a row shorter
    than the first.  The KeyError and the ZeroDivisionError its helpers
    can raise never leave it. *)
Theorem choose_move_raises_only_on_malformed
    (state : BrainJson.State) (boosts_remaining player_number : Z)
    (e : exn) :
  outcome (BrainJson.choose_move state boosts_remaining player_number)
  = Raise e ->
  truthy (get (BrainJson.board state) []) = true
  /\ ((e = IndexError /\ head_readable state player_number = false)
      \/ (e = TypeError
          /\ head_readable state player_number = true
          /\ turn_readable state = false)
      \/ (e = IndexError
          /\ head_readable state player_number = true
          /\ turn_readable state = true
          /\ no_short_row (get (BrainJson.board state) []) = false)).
Proof.
  intros Hraise.
  destruct (truthy (get (BrainJson.board state) [])) eqn:Hb.
  2: { unfold BrainJson.choose_move in Hraise. rewrite Hb in Hraise.
       discriminate Hraise. }
  split; [reflexivity |].
  destruct (json_head_readable state player_number)
    as [(Hhead & head & Hh) | (Hhead & Hh)].
  - destruct (json_turn_readable state)
      as [(Hturn & t & Ht) | (Hturn & Ht)].
    + right. right.
      rewrite (json_choose_move_run state _ _ head t Hb Hh Ht) in Hraise.
      destruct (choose_safe_direction_raises _ _ _ _ e
                  (preferred_order_of_names _) Hraise) as [He Hrows].
      now repeat split.
    + right. left.
      unfold BrainJson.choose_move in Hraise.
      rewrite Hb, Hh, Ht in Hraise. cbn [negb] in Hraise.
      rewrite bind_ret_l in Hraise. destruct head as [head_x head_y].
      cbn in Hraise. injection Hraise as <-. now repeat split.
  - left.
    unfold BrainJson.choose_move in Hraise.
    rewrite Hb, Hh in Hraise. cbn in Hraise.
    injection Hraise as <-. now split.
Qed.

Lemma choose_move_raises_only_on_malformed_witness :
  truthy (get (BrainJson.board null_turn_json) []) = true
  /\ ((TypeError = IndexError /\ head_readable null_turn_json 1 = false)
      \/ (TypeError = TypeError
          /\ head_readable null_turn_json 1 = true
          /\ turn_readable null_turn_json = false)
      \/ (TypeError = IndexError
          /\ head_readable null_turn_json 1 = true
          /\ turn_readable null_turn_json = true
          /\ no_short_row (get (BrainJson.board null_turn_json) [])
             = false)).
Proof.
  apply (choose_move_raises_only_on_malformed null_turn_json 0 1 TypeError).
  reflexivity.
Defined.

(** X9: when the cell in the first direction of the turn's order is
    free, [choose_move] looks up that cell only and moves there; the
    first direction goes through RIGHT, DOWN, LEFT, UP as turn_count
    goes through 0, 1, 2, 3 modulo 4. *)
Theorem choose_move_first_preference
    (state : State) (boosts_remaining player_number : Z)
    (grid : list (list Z)) (width height : Z) :
  board state = Some grid ->
  degenerate grid = false ->
  _get_board_size grid = (width, height) ->
  let head := head_of state player_number in
  let first := nth (Z.to_nat (get (turn_count state) 0 mod 4))
                 ["RIGHT"; "DOWN"; "LEFT"; "UP"] "UP" in
  marker grid (neighbour width height head first) = Ok 0 ->
  choose_move state boosts_remaining player_number
  = ([neighbour width height head first], Ok first).
Proof.
  intros Hb Hd Hs head first. subst head.
  enter_loop Hb Hd Hs. intros Hfree.
  pose proof (Z.mod_pos_bound (get (turn_count state) 0) 4 eq_refl)
    as Hpattern.
  assert (Hcases : get (turn_count state) 0 mod 4 = 0
                   \/ get (turn_count state) 0 mod 4 = 1
                   \/ get (turn_count state) 0 mod 4 = 2
                   \/ get (turn_count state) 0 mod 4 = 3) by lia.
  subst first.
  destruct Hcases as [E | [E | [E | E]]]; rewrite E in *;
    [ change (nth (Z.to_nat 0) ["RIGHT"; "DOWN"; "LEFT"; "UP"] "UP")
        with "RIGHT" in *
    | change (nth (Z.to_nat 1) ["RIGHT"; "DOWN"; "LEFT"; "UP"] "UP")
        with "DOWN" in *
    | change (nth (Z.to_nat 2) ["RIGHT"; "DOWN"; "LEFT"; "UP"] "UP")
        with "LEFT" in *
    | change (nth (Z.to_nat 3) ["RIGHT"; "DOWN"; "LEFT"; "UP"] "UP")
        with "UP" in * ];
    unfold preferred_order_of; cbn [Z.eqb Pos.eqb];
    (rewrite loop_step;
     [cbv zeta; now rewrite Hfree | assumption | assumption
     | unfold direction_names; cbn [In]; auto 6]).
Qed.

Lemma choose_move_first_preference_witness :
  choose_move (set_turn_count scenario_state 5) 3 1
  = ([neighbour 3 3 (1, 1) "DOWN"], Ok "DOWN").
Proof.
  apply (choose_move_first_preference (set_turn_count scenario_state 5) 3 1
           [[0; 0; 0]; [0; 0; 0]; [0; 0; 0]] 3 3); reflexivity.
Defined.

(** ** The two files together *)

(** X10: the move [choose_move] returns on a board with no row shorter
    than the first is decoded by [move_str_to_direction_and_boost] to the
    member of Direction of that name, without boost: the decoder's
    fallback is not taken and no boost is ever requested. *)
Theorem chosen_move_decodes_without_boost
    (state : State) (boosts_remaining player_number : Z) :
  no_short_row (get (board state) []) = true ->
  exists name member,
    outcome (choose_move state boosts_remaining player_number) = Ok name
    /\ In (name, member) Direction_members
    /\ move_str_to_direction_and_boost name = Ok (member, false).
Proof.
  intros Hrows.
  pose proof (choose_move_returns_name state boosts_remaining
                player_number Hrows) as Hname.
  destruct Hname as (name & Hin & Hrun).
  unfold direction_names in Hin. cbn [In] in Hin.
  destruct Hin as [<- | [<- | [<- | [<- | []]]]].
  - exists "UP", UP. repeat split; [exact Hrun | cbn; auto].
  - exists "DOWN", DOWN. repeat split; [exact Hrun | cbn; auto].
  - exists "LEFT", LEFT. repeat split; [exact Hrun | cbn; auto 6].
  - exists "RIGHT", RIGHT. repeat split; [exact Hrun | cbn; auto 6].
Qed.

Lemma chosen_move_decodes_without_boost_witness :
  exists name member,
    outcome (choose_move corridor_state 3 1) = Ok name
    /\ In (name, member) Direction_members
    /\ move_str_to_direction_and_boost name = Ok (member, false).
Proof.
  apply (chosen_move_decodes_without_boost corridor_state 3 1).
  reflexivity.
Defined.

(** ** visual_tron.py: the decoder of move strings *)

Lemma upper_char_idempotent (c : ascii) :
  upper_char (upper_char c) = upper_char c.
Proof. destruct c as [[] [] [] [] [] [] [] []]; reflexivity. Qed.

Lemma isspace_upper_char (c : ascii) : isspace (upper_char c) = isspace c.
Proof. destruct c as [[] [] [] [] [] [] [] []]; reflexivity. Qed.

Lemma upper_idempotent (s : string) : upper (upper s) = upper s.
Proof.
  induction s as [| c s IH]; [reflexivity |].
  cbn [upper]. now rewrite upper_char_idempotent, IH.
Qed.

Lemma lstrip_upper (s : string) : lstrip (upper s) = upper (lstrip s).
Proof.
  induction s as [| c s IH]; [reflexivity |].
  cbn [upper lstrip]. rewrite isspace_upper_char.
  destruct (isspace c); [exact IH | reflexivity].
Qed.

Lemma rstrip_upper (s : string) : rstrip (upper s) = upper (rstrip s).
Proof.
  induction s as [| c s IH]; [reflexivity |].
  cbn [upper rstrip]. rewrite IH, isspace_upper_char.
  destruct (rstrip s); [destruct (isspace c) |]; reflexivity.
Qed.

Lemma strip_upper (s : string) : strip (upper s) = upper (strip s).
Proof. unfold strip. now rewrite lstrip_upper, rstrip_upper. Qed.

Lemma rstrip_append_space (s : string) (c : ascii) :
  isspace c = true -> rstrip (s ++ String c EmptyString) = rstrip s.
Proof.
  intros Hc. induction s as [| d s IH].
  - cbn. now rewrite Hc.
  - cbn [append rstrip]. now rewrite IH.
Qed.

Lemma lstrip_append_space (s : string) (c : ascii) :
  isspace c = true ->
  lstrip (s ++ String c EmptyString)
  = match lstrip s with
    | EmptyString => EmptyString
    | t => (t ++ String c EmptyString)%string
    end.
Proof.
  intros Hc. induction s as [| d s IH].
  - cbn. now rewrite Hc.
  - cbn [append lstrip]. destruct (isspace d); [exact IH | reflexivity].
Qed.

Lemma strip_append_space (s : string) (c : ascii) :
  isspace c = true -> strip (s ++ String c EmptyString) = strip s.
Proof.
  intros Hc. unfold strip. rewrite lstrip_append_space by exact Hc.
  destruct (lstrip s); [reflexivity |].
  now apply rstrip_append_space.
Qed.

Lemma strip_cons_space (s : string) (c : ascii) :
  isspace c = true -> strip (String c s) = strip s.
Proof. intros Hc. unfold strip. cbn [lstrip]. now rewrite Hc. Qed.

(** The decoder sees its argument only through the stripped and
    uppercased text. *)
Lemma move_str_same_text (move_str move_str' : string) :
  upper (strip move_str) = upper (strip move_str') ->
  move_str_to_direction_and_boost move_str
  = move_str_to_direction_and_boost move_str'.
Proof.
  intros E. pose proof (move_str_run move_str) as H.
  pose proof (move_str_run move_str') as H'.
  cbv zeta in H, H'. rewrite H, H', E. reflexivity.
Qed.

(** X11: on ASCII text the decoder ignores the case of letters: two
    ASCII move strings with the same uppercase form are decoded
    alike. *)
Theorem move_str_case_insensitive (move_str move_str' : string) :
  is_ascii move_str = true ->
  is_ascii move_str' = true ->
  upper move_str = upper move_str' ->
  move_str_to_direction_and_boost move_str
  = move_str_to_direction_and_boost move_str'.
Proof.
  intros _ _ E. apply move_str_same_text.
  now rewrite <- !strip_upper, E.
Qed.

Lemma move_str_case_insensitive_witness :
  move_str_to_direction_and_boost "Down:Boost"
  = move_str_to_direction_and_boost "dOWN:boosT".
Proof.
  apply (move_str_case_insensitive "Down:Boost" "dOWN:boosT");
    reflexivity.
Defined.

(** X12: on ASCII text the decoder ignores whitespace around the move
    string: an ASCII whitespace character (space, tab, line feed,
    vertical tab, form feed, carriage return, or one of the separators
    28 to 31) put before or after an ASCII move string does not change
    the result. *)
Theorem move_str_ignores_outer_space (move_str : string) (c : ascii) :
  is_ascii move_str = true ->
  isspace c = true ->
  move_str_to_direction_and_boost (String c move_str)
  = move_str_to_direction_and_boost move_str
  /\ move_str_to_direction_and_boost (move_str ++ String c EmptyString)
     = move_str_to_direction_and_boost move_str.
Proof.
  intros _ Hc. split; apply move_str_same_text.
  - now rewrite strip_cons_space.
  - now rewrite strip_append_space.
Qed.

Lemma move_str_ignores_outer_space_witness :
  move_str_to_direction_and_boost (String "009" "left")
  = move_str_to_direction_and_boost "left"
  /\ move_str_to_direction_and_boost ("left" ++ String "009" EmptyString)
     = move_str_to_direction_and_boost "left".
Proof.
  apply (move_str_ignores_outer_space "left" "009"); reflexivity.
Defined.

(** X13: what a result of the decoder tells about the text (the move
    string stripped and uppercased, whatever [str.strip] and
    [str.upper] do to it): a result other than the fallback names the
    member whose name is the direction part, and its boost flag says
    whether the text holds :BOOST; the only other result is
    (RIGHT, False), for a direction part that is no member name. *)
Theorem move_str_result_sound (str_strip str_upper : string -> string)
    (move_str : string) (direction_enum : Direction) (use_boost : bool) :
  VisualTronText.move_str_to_direction_and_boost str_strip str_upper
    move_str
  = Ok (direction_enum, use_boost) ->
  let text := str_upper (str_strip move_str) in
  (In (direction_part text, direction_enum) Direction_members
   /\ use_boost = contains ":BOOST" text)
  \/ (~ In (direction_part text) (map fst Direction_members)
      /\ direction_enum = RIGHT /\ use_boost = false).
Proof.
  intros H text.
  pose proof (text_move_str_run str_strip str_upper move_str) as Hrun.
  cbv zeta in Hrun. fold text in Hrun. rewrite Hrun in H.
  unfold Direction_getitem in H.
  destruct (dict_getitem_cases Direction_members (direction_part text))
    as [(d & Hd & Hin) | (Hd & Hnot)]; rewrite Hd in H;
    injection H as <- <-.
  - left. now split.
  - right. now repeat split.
Qed.

Lemma move_str_result_sound_witness :
  (In (direction_part (upper (strip " up:boost ")), UP) Direction_members
   /\ true = contains ":BOOST" (upper (strip " up:boost ")))
  \/ (~ In (direction_part (upper (strip " up:boost ")))
          (map fst Direction_members)
      /\ UP = RIGHT /\ true = false).
Proof.
  apply (move_str_result_sound strip upper " up:boost " UP true).
  reflexivity.
Defined.

(** X14: after a member name and a colon any text is accepted as a
    request for a boost, provided :BOOST occurs somewhere in the whole:
    UP:BOOSTER and UP:X:BOOST are decoded as (UP, True). *)
Theorem move_str_boost_anywhere (move_str name rest : string)
    (member : Direction) :
  In (name, member) Direction_members ->
  upper (strip move_str) = (name ++ ":" ++ rest)%string ->
  contains ":BOOST" (name ++ ":" ++ rest) = true ->
  move_str_to_direction_and_boost move_str = Ok (member, true).
Proof.
  intros Hin Htext Hboost. pose proof (move_str_run move_str) as Hrun.
  cbv zeta in Hrun. rewrite Hrun, Htext. unfold direction_part.
  rewrite Hboost. clear Hboost Htext Hrun.
  unfold Direction_members in Hin. cbn [In] in Hin.
  destruct Hin as [H | [H | [H | [H | []]]]];
    injection H as <- <-; destruct rest; reflexivity.
Qed.

Lemma move_str_boost_anywhere_witness :
  move_str_to_direction_and_boost "left:x:boost" = Ok (LEFT, true).
Proof.
  apply (move_str_boost_anywhere "left:x:boost" "LEFT" "X:BOOST" LEFT);
    [cbn; auto | reflexivity | reflexivity].
Defined.

(** X15: when the move string, stripped and uppercased (whatever
    [str.strip] and [str.upper] do to it), is a member name followed by a
    colon and a text such that :BOOST does not occur in the whole, as in
    UP: or UP:BOOS, it is not decoded as that member: the whole text is
    taken as the direction part, it names no member, and the result is
    the fallback (RIGHT, False). *)
Theorem move_str_colon_without_boost
    (str_strip str_upper : string -> string)
    (move_str name rest : string) (member : Direction) :
  In (name, member) Direction_members ->
  str_upper (str_strip move_str) = (name ++ ":" ++ rest)%string ->
  contains ":BOOST" (name ++ ":" ++ rest) = false ->
  direction_part (str_upper (str_strip move_str))
  = (name ++ ":" ++ rest)%string
  /\ VisualTronText.move_str_to_direction_and_boost str_strip str_upper
       move_str
     = Ok (RIGHT, false).
Proof.
  intros Hin Htext Hboost.
  pose proof (text_move_str_run str_strip str_upper move_str) as Hrun.
  cbv zeta in Hrun. rewrite Hrun, Htext. unfold direction_part.
  rewrite Hboost. split; [reflexivity |].
  unfold Direction_members in Hin. cbn [In] in Hin.
  destruct Hin as [H | [H | [H | [H | []]]]];
    injection H as <- <-; reflexivity.
Qed.

Lemma move_str_colon_without_boost_witness :
  VisualTronText.move_str_to_direction_and_boost strip upper "up:boos"
  = Ok (RIGHT, false).
Proof.
  apply (move_str_colon_without_boost strip upper "up:boos" "UP" "BOOS" UP);
    [cbn; auto | reflexivity | reflexivity].
Defined.

(** ** visual_tron.py: the state handed to the brain *)

Lemma map_pair_identity (l : list (Z * Z)) :
  map (fun '(x, y) => (x, y)) l = l.
Proof.
  induction l as [| [x y] l IH]; [reflexivity |].
  cbn [map]. now rewrite IH.
Qed.

(** X16: [choose_move] on the state [build_state_from_game] builds sees
    the game itself: the head is the last element of the trail of the
    agent asked for, (0,0) when that agent has no trail yet; the order
    is the one of the game's turn number; the board is the grid.  The
    player_number written into the state and the boosts play no part:
    the states built for either player give the same run. *)
Theorem choose_move_on_built_state (game : CaseClosedGame.Game)
    (built_for built_for' boosts_remaining boosts_remaining' : Z)
    (player_number : Z) :
  let state := build_state_from_game game built_for in
  let agent := if player_number =? 1 then CaseClosedGame.agent1 game
               else CaseClosedGame.agent2 game in
  let head := last (CaseClosedGame.trail agent) (0, 0) in
  let grid := CaseClosedGame.grid (CaseClosedGame.board game) in
  _get_head_position state player_number = ([], Ok head)
  /\ choose_move state boosts_remaining player_number
     = (if negb (truthy grid) then ret "RIGHT"
        else _choose_safe_direction grid (fst head) (snd head)
               (preferred_order_of (CaseClosedGame.turns game mod 4)))
  /\ choose_move state boosts_remaining player_number
     = choose_move (build_state_from_game game built_for')
         boosts_remaining' player_number.
Proof.
  intros state agent head grid.
  assert (Hhead : forall who,
            head_of (build_state_from_game game who) player_number = head).
  { intros who. unfold head_of, own_trail, build_state_from_game.
    subst head agent.
    destruct (player_number =? 1);
      cbn [agent1_trail agent2_trail get]; now rewrite map_pair_identity. }
  split; [| split].
  - subst state. now rewrite get_head_position_run, Hhead.
  - subst state. rewrite choose_move_run, Hhead. reflexivity.
  - subst state. rewrite !choose_move_run, !Hhead. reflexivity.
Qed.

(** ** visual_tron.py: the drawing *)

Lemma range_length (n : Z) : List.length (range n) = Z.to_nat n.
Proof. unfold range. now rewrite length_map, length_seq. Qed.

Lemma range_nth (n i : Z) :
  0 <= i < n -> nth_error (range n) (Z.to_nat i) = Some i.
Proof.
  intros Hi. unfold range.
  rewrite nth_error_map, nth_error_seq.
  destruct (Nat.ltb_spec (Z.to_nat i) (Z.to_nat n)) as [_ | Hge]; [| lia].
  cbn [option_map]. f_equal. lia.
Qed.

Lemma any_at_In (trail_list : list (Z * Z)) (x y : Z) :
  any_at trail_list x y = true <-> In (x, y) trail_list.
Proof.
  unfold any_at. rewrite existsb_exists. split.
  - intros ([tx ty] & Hin & Heq).
    apply andb_true_iff in Heq. destruct Heq as [Hx Hy].
    apply Z.eqb_eq in Hx, Hy. now subst.
  - intros Hin. exists (x, y). split; [exact Hin |].
    now rewrite !Z.eqb_refl.
Qed.

Lemma head_or_None_run (trail_list : list (Z * Z)) :
  head_or_None trail_list
  = Ok match trail_list with
       | [] => (None, None)
       | _ :: _ => (Some (fst (last trail_list (0, 0))),
                    Some (snd (last trail_list (0, 0))))
       end.
Proof.
  unfold head_or_None. destruct trail_list as [| h t]; [reflexivity |].
  cbn [truthy]. now rewrite (getitem_last (h :: t) (0, 0)) by discriminate.
Qed.

(** The test [h1x is not None and x == h1x and y == h1y] on the head
    coordinates computed from a trail: the cell is the last element. *)
Lemma head_test (trail_list : list (Z * Z)) (hx hy : option Z) (x y : Z) :
  head_or_None trail_list = Ok (hx, hy) ->
  (is_not_None hx && eq_int x hx && eq_int y hy = true
   <-> trail_list <> [] /\ last trail_list (0, 0) = (x, y)).
Proof.
  unfold head_or_None. destruct trail_list as [| h t].
  - intros H. injection H as <- <-. cbn.
    split; [discriminate | intros [Hne _]; now contradiction Hne].
  - cbn [truthy]. rewrite (getitem_last (h :: t) (0, 0)) by discriminate.
    cbn [and_then]. generalize (last (h :: t) (0, 0)).
    intros [lx ly] H. injection H as <- <-.
    cbn [is_not_None eq_int andb fst snd].
    rewrite andb_true_iff, !Z.eqb_eq. split.
    + intros [-> ->]. split; [discriminate | reflexivity].
    + intros [_ E]. injection E as -> ->. now split.
Qed.

Lemma last_In (trail_list : list (Z * Z)) :
  trail_list <> [] -> In (last trail_list (0, 0)) trail_list.
Proof.
  intros Hne. destruct (exists_last Hne) as [l [a ->]].
  rewrite last_last. apply in_or_app. right. now left.
Qed.

Lemma framed_not_empty (before glyph after : string) :
  glyph <> EmptyString -> glyph <> CELL_EMPTY ->
  (before ++ glyph ++ after)%string <> CELL_EMPTY.
Proof.
  intros Hne Hdot H. unfold CELL_EMPTY in *.
  destruct before as [| c before]; cbn [append] in H.
  - destruct glyph as [| g glyph]; [now contradiction Hne |].
    cbn [append] in H. injection H as -> H.
    destruct glyph; [now contradiction Hdot | discriminate H].
  - injection H as _ H.
    destruct before; [| discriminate H].
    destruct glyph; [now contradiction Hne | discriminate H].
Qed.

Section Drawing.
Variables Fore_BLUE Fore_YELLOW Style_RESET_ALL : string.
Variable game : CaseClosedGame.Game.

Let a1 := CaseClosedGame.trail (CaseClosedGame.agent1 game).
Let a2 := CaseClosedGame.trail (CaseClosedGame.agent2 game).
Let W := CaseClosedGame.width (CaseClosedGame.board game).
Let H := CaseClosedGame.height (CaseClosedGame.board game).
Let rows_of := draw_rows Fore_BLUE Fore_YELLOW Style_RESET_ALL.
Let cell_of := draw_cell Fore_BLUE Fore_YELLOW Style_RESET_ALL a1 a2.

(** The rows that are drawn, and the text at row y, column x. *)
Lemma draw_rows_run :
  exists h1x h1y h2x h2y,
    head_or_None a1 = Ok (h1x, h1y)
    /\ head_or_None a2 = Ok (h2x, h2y)
    /\ rows_of game
       = Ok (map (fun y => map (fun x => cell_of h1x h1y h2x h2y x y)
                             (range W))
               (range H)).
Proof.
  subst rows_of cell_of. unfold draw_rows. fold a1 a2 W H.
  rewrite (head_or_None_run a1), (head_or_None_run a2). cbn [and_then].
  destruct a1 as [| p1 t1], a2 as [| p2 t2]; repeat eexists.
Qed.

Lemma draw_rows_at (x y : Z) :
  0 <= x < W -> 0 <= y < H ->
  exists h1x h1y h2x h2y rows row,
    head_or_None a1 = Ok (h1x, h1y)
    /\ head_or_None a2 = Ok (h2x, h2y)
    /\ rows_of game = Ok rows
    /\ nth_error rows (Z.to_nat y) = Some row
    /\ nth_error row (Z.to_nat x) = Some (cell_of h1x h1y h2x h2y x y).
Proof.
  intros Hx Hy.
  destruct draw_rows_run as (h1x & h1y & h2x & h2y & E1 & E2 & Hrows).
  exists h1x, h1y, h2x, h2y. eexists. eexists.
  split; [exact E1 |]. split; [exact E2 |]. split; [exact Hrows |].
  rewrite nth_error_map, (range_nth H y Hy). cbn [option_map].
  split; [reflexivity |].
  now rewrite nth_error_map, (range_nth W x Hx).
Qed.

(** X17: [draw_board] raises nothing, also when a trail is empty; it
    prints one line per row of the board, [height] lines (none for a
    height of 0 or less), each the join of [width] cells. *)
Theorem draw_board_shape :
  exists rows,
    rows_of game = Ok rows
    /\ draw_board Fore_BLUE Fore_YELLOW Style_RESET_ALL game
       = Ok (map (join " ") rows)
    /\ List.length rows = Z.to_nat H
    /\ Forall (fun row => List.length row = Z.to_nat W) rows.
Proof.
  destruct draw_rows_run as (h1x & h1y & h2x & h2y & _ & _ & Hrows).
  eexists. split; [exact Hrows |].
  split; [unfold draw_board; subst rows_of; now rewrite Hrows |].
  split; [now rewrite length_map, range_length |].
  apply Forall_forall. intros row Hin.
  apply in_map_iff in Hin. destruct Hin as (y & <- & _).
  now rewrite length_map, range_length.
Qed.

(** X18: a cell of the board is drawn as the empty cell "." exactly when
    it is on neither trail. *)
Theorem drawn_cell_empty_iff (x y : Z) :
  0 <= x < W -> 0 <= y < H ->
  exists rows row cell,
    rows_of game = Ok rows
    /\ nth_error rows (Z.to_nat y) = Some row
    /\ nth_error row (Z.to_nat x) = Some cell
    /\ (cell = CELL_EMPTY <-> ~ In (x, y) a1 /\ ~ In (x, y) a2).
Proof.
  intros Hx Hy.
  destruct (draw_rows_at x y Hx Hy)
    as (h1x & h1y & h2x & h2y & rows & row & E1 & E2 & Hrows & Hrow & Hcell).
  exists rows, row, (cell_of h1x h1y h2x h2y x y).
  repeat (split; [assumption |]).
  pose proof (head_test a1 h1x h1y x y E1) as T1.
  pose proof (head_test a2 h2x h2y x y E2) as T2.
  pose proof (any_at_In a1 x y) as I1.
  pose proof (any_at_In a2 x y) as I2.
  subst cell_of. unfold draw_cell.
  destruct (is_not_None h1x && eq_int x h1x && eq_int y h1y).
  { destruct (proj1 T1 eq_refl) as [Hne Hlast].
    split; [intros E; now apply framed_not_empty in E |].
    intros [Hn _]. exfalso. apply Hn. rewrite <- Hlast. now apply last_In. }
  destruct (is_not_None h2x && eq_int x h2x && eq_int y h2y).
  { destruct (proj1 T2 eq_refl) as [Hne Hlast].
    split; [intros E; now apply framed_not_empty in E |].
    intros [_ Hn]. exfalso. apply Hn. rewrite <- Hlast. now apply last_In. }
  cbv zeta.
  destruct (any_at a1 x y).
  { split; [intros E; now apply framed_not_empty in E |].
    intros [Hn _]. exfalso. apply Hn. now apply I1. }
  destruct (any_at a2 x y).
  { split; [intros E; now apply framed_not_empty in E |].
    intros [_ Hn]. exfalso. apply Hn. now apply I2. }
  split; [| reflexivity].
  intros _. split; intros Hin.
  - apply I1 in Hin. discriminate Hin.
  - apply I2 in Hin. discriminate Hin.
Qed.

(** X19: the cell of the head of agent 1 shows the head of agent 1,
    whatever else is on it; the cell of the head of agent 2 shows the
    head of agent 2 unless the head of agent 1 is on it too, as after a
    head-on collision. *)
Theorem drawn_heads (x y : Z) :
  0 <= x < W -> 0 <= y < H ->
  exists rows row cell,
    rows_of game = Ok rows
    /\ nth_error rows (Z.to_nat y) = Some row
    /\ nth_error row (Z.to_nat x) = Some cell
    /\ (a1 <> [] /\ last a1 (0, 0) = (x, y) ->
        cell = (Fore_BLUE ++ AGENT1_HEAD_CHAR ++ Style_RESET_ALL)%string)
    /\ (a2 <> [] /\ last a2 (0, 0) = (x, y) ->
        ~ (a1 <> [] /\ last a1 (0, 0) = (x, y)) ->
        cell = (Fore_YELLOW ++ AGENT2_HEAD_CHAR ++ Style_RESET_ALL)%string).
Proof.
  intros Hx Hy.
  destruct (draw_rows_at x y Hx Hy)
    as (h1x & h1y & h2x & h2y & rows & row & E1 & E2 & Hrows & Hrow & Hcell).
  exists rows, row, (cell_of h1x h1y h2x h2y x y).
  repeat (split; [assumption |]).
  pose proof (head_test a1 h1x h1y x y E1) as T1.
  pose proof (head_test a2 h2x h2y x y E2) as T2.
  subst cell_of. unfold draw_cell.
  destruct (is_not_None h1x && eq_int x h1x && eq_int y h1y).
  - split; [reflexivity |].
    intros _ Hnot. exfalso. apply Hnot. now apply T1.
  - split; [intros Hh; apply T1 in Hh; discriminate Hh |].
    intros Hh _. apply T2 in Hh. now rewrite Hh.
Qed.

End Drawing.

Lemma drawn_cell_empty_iff_witness :
  exists rows row cell,
    draw_rows "<B>" "<Y>" "<R>" sample_game = Ok rows
    /\ nth_error rows (Z.to_nat 1) = Some row
    /\ nth_error row (Z.to_nat 3) = Some cell
    /\ (cell = CELL_EMPTY
        <-> ~ In (3, 1) [(0, 0); (1, 0); (1, 1)]
            /\ ~ In (3, 1) [(3, 2); (2, 2)]).
Proof.
  apply (drawn_cell_empty_iff "<B>" "<Y>" "<R>" sample_game 3 1);
    cbn; lia.
Defined.

Lemma drawn_heads_witness :
  exists rows row cell,
    draw_rows "<B>" "<Y>" "<R>" collision_game = Ok rows
    /\ nth_error rows (Z.to_nat 1) = Some row
    /\ nth_error row (Z.to_nat 2) = Some cell
    /\ cell = "<B>◉<R>".
Proof.
  destruct (drawn_heads "<B>" "<Y>" "<R>" collision_game 2 1)
    as (rows & row & cell & Hrows & Hrow & Hcell & Hhead1 & _);
    [cbn; lia | cbn; lia |].
  exists rows, row, cell. repeat (split; [assumption |]).
  apply Hhead1. split; [discriminate | reflexivity].
Defined.
